(** * url_poller.py: a shallow embedding and its properties

    The script polls a set of named URLs through a thread pool, classifies
    each outcome into a result dictionary, prints a report, writes the
    results as JSON and derives the process exit code.

    Everything the script obtains from outside (the HTTP client, the clocks,
    the thread pool's completion order, the file system) is an explicit
    oracle, see [Observation] and [World].  Python dictionaries are
    insertion-ordered association lists, statements run in a small
    trace-and-exception monad [M], and [try]/[except] is [try_except]. *)

From Stdlib Require Import ZArith QArith Qround Qabs Lqa Qpower Zpower.
From Stdlib Require Import List String Ascii Bool Lia.
From Stdlib Require Import Permutation Sorted DecimalString.
From Stdlib Require Import PrimFloat SpecFloat FloatOps FloatAxioms.
Import ListNotations.

Local Open Scope string_scope.
Local Open Scope list_scope.
Local Open Scope Z_scope.

Notation "s1 +++ s2" := (String.append s1 s2)
  (at level 60, right associativity) : string_scope.

(* ------------------------------------------------------------------ *)
(** ** Python values and dictionaries *)

(** The values stored in a result dictionary.  A finite [float] is given
    by the number it stands for, the two zeros being one number; the
    arithmetic that produces it is that of binary64, see [round2]. *)
Inductive PyVal : Type :=
| VNone
| VStr (s : string)
| VInt (z : Z)
| VFloat (q : Q).

(** [bool(v)]: the truth value Python's [if v:] tests. *)
Definition truthy (v : PyVal) : bool :=
  match v with
  | VNone => false
  | VStr s => negb (String.eqb s "")
  | VInt z => negb (z =? 0)
  | VFloat q => negb (Qnum q =? 0)
  end.

(** [v == s] for a string literal [s]. *)
Definition eq_str (v : PyVal) (s : string) : bool :=
  match v with
  | VStr s' => String.eqb s' s
  | _ => false
  end.

(** [str(n)] for an [int]. *)
Definition str_int (z : Z) : string := NilZero.string_of_int (Z.to_int z).

(** A [dict] with [str] keys: the items in insertion order, keys distinct. *)
Definition Dict (V : Type) : Type := list (string * V).
Definition PyDict : Type := Dict PyVal.

Section Dicts.
Context {V : Type}.

Fixpoint dict_get (d : Dict V) (k : string) : option V :=
match d with
| [] => None
| (k', v) :: d' => if String.eqb k' k then Some v else dict_get d' k
end.

(** [d[k] = v]: an existing key keeps its position, a new key goes last. *)
Fixpoint dict_set (d : Dict V) (k : string) (v : V) : Dict V :=
match d with
| [] => [(k, v)]
| (k', v') :: d' =>
    if String.eqb k' k then (k', v) :: d' else (k', v') :: dict_set d' k v
end.

Definition dict_keys (d : Dict V) : list string := map fst d.
Definition dict_items (d : Dict V) : list (string * V) := d.
End Dicts.

(* ------------------------------------------------------------------ *)
(** ** Exceptions, output and the statement monad *)

(** The exception classes the script names, and the ones its own
    subscripting and the thread pool raise. *)
Inductive ExcClass : Type :=
| Exception_
| RequestException
| Timeout
| ConnectionError
| FileNotFoundError
| JSONDecodeError
| KeyError
| TypeError
| ValueError.

Definition ExcClass_eqb (a b : ExcClass) : bool :=
  match a, b with
  | Exception_, Exception_ | RequestException, RequestException
  | Timeout, Timeout | ConnectionError, ConnectionError
  | FileNotFoundError, FileNotFoundError | JSONDecodeError, JSONDecodeError
  | KeyError, KeyError | TypeError, TypeError | ValueError, ValueError => true
  | _, _ => false
  end.

(** A raised instance of [Exception]: the listed classes it is an instance
    of, and [str(e)].  Asynchronous [BaseException]s (a keyboard interrupt)
    are not modelled; [sys.exit] is [SystemExit] below. *)
Record PyExc : Type := mkExc {
  exc_classes : list ExcClass;
  exc_str : string
}.

Definition isinstance (e : PyExc) (c : ExcClass) : bool :=
  match c with
  | Exception_ => true
  | _ => existsb (ExcClass_eqb c) (exc_classes e)
  end.

(** What [json.dump] writes for a list of result dictionaries: an array of
    objects whose members are scalars, [None] becoming [null]. *)
Inductive json_scalar : Type :=
| JNull
| JString (s : string)
| JInt (z : Z)
| JFloat (q : Q).

Definition json_object : Type := list (string * json_scalar).
Definition json_array : Type := list json_object.

(** What [json.load] returns: [None], a [bool], an [int], a [float], a
    [str], a [list], or a [dict] with [str] keys in the order of the
    document. *)
#[local] Unset Elimination Schemes.
Inductive pyjson : Type :=
| JsNone
| JsBool (b : bool)
| JsInt (z : Z)
| JsFloat (x : float)
| JsStr (s : string)
| JsList (l : list pyjson)
| JsDict (d : list (string * pyjson)).
#[local] Set Elimination Schemes.

Definition type_name (v : pyjson) : string :=
  match v with
  | JsNone => "NoneType"
  | JsBool _ => "bool"
  | JsInt _ => "int"
  | JsFloat _ => "float"
  | JsStr _ => "str"
  | JsList _ => "list"
  | JsDict _ => "dict"
  end.

(** One [print] call.  Lines whose text is built from strings and integers
    are given in full; lines that format an arbitrary value keep the value. *)
Inductive Line : Type :=
| Text (s : string)
| DictRepr (d : Dict string)                    (* print(urls_dict) *)
| ResultLine (symbol : string) (name url : PyVal)
    (* f"{symbol} {result['name']:<30} | {result['url']:<50}" *)
| StatusCodeLine (v : PyVal)                    (* f"   Status Code: {v}" *)
| ResponseTimeLine (v : PyVal)                  (* f"   Response Time: {v}ms" *)
| ErrorLine (v : PyVal).                        (* f"   Error: {v}" *)

Inductive Event : Type :=
| Stdout (l : Line)
| HttpGet (url : string) (timeout : Z)
    (* self.session.get(url, timeout=self.timeout, allow_redirects=True) *)
| FileWrite (path : string) (content : json_array).
    (* with open(path, 'w') as f: json.dump(content, f, indent=2) *)

(** How a statement ends early: with an exception, with [sys.exit], or,
    [Untyped], where the run goes on with values that are not of the types
    the annotations give and is followed no further. *)
Inductive Abort : Type :=
| Raise (e : PyExc)
| SystemExit (code : Z)
| Untyped.

(** A statement: the events it performed, then either an abort or a value. *)
Definition M (A : Type) : Type := (list Event * (Abort + A))%type.

Definition ret {A} (a : A) : M A := ([], inr a).

Definition bind {A B} (m : M A) (f : A -> M B) : M B :=
  match m with
  | (t, inl x) => (t, inl x)
  | (t, inr a) => let (t', r) := f a in (t ++ t', r)
  end.

Definition emit (e : Event) : M unit := ([e], inr tt).
Definition print (l : Line) : M unit := emit (Stdout l).
Definition raise {A} (e : PyExc) : M A := ([], inl (Raise e)).
Definition sys_exit {A} (code : Z) : M A := ([], inl (SystemExit code)).
Definition untyped {A} : M A := ([], inl Untyped).

Notation "x <- m ;; k" := (bind m (fun x => k))
  (at level 61, m at next level, right associativity).
Notation "m ;;; k" := (bind m (fun _ => k))
  (at level 61, right associativity).

Definition trace {A} (m : M A) : list Event := fst m.
Definition outcome {A} (m : M A) : Abort + A := snd m.

(** [try: body / except C1: h1 / except C2: h2 ...]: the first clause whose
    class the exception is an instance of handles it; [SystemExit] is not an
    [Exception] and passes through. *)
Fixpoint find_handler {A} (e : PyExc) (hs : list (ExcClass * (PyExc -> M A)))
  : option (PyExc -> M A) :=
  match hs with
  | [] => None
  | (c, h) :: hs' => if isinstance e c then Some h else find_handler e hs'
  end.

Definition try_except {A} (body : M A) (hs : list (ExcClass * (PyExc -> M A)))
  : M A :=
  match body with
  | (t, inl (Raise e)) =>
      match find_handler e hs with
      | Some h => let (t', r) := h e in (t ++ t', r)
      | None => (t, inl (Raise e))
      end
  | other => other
  end.

(** [d[k]] read: [KeyError] when the key is absent. *)
Definition getitem {V} (d : Dict V) (k : string) : M V :=
  match dict_get d k with
  | Some v => ret v
  | None => raise (mkExc [KeyError] ("'" +++ k +++ "'"))
  end.

(* ------------------------------------------------------------------ *)
(** ** Clocks *)

(** A naive [datetime], as [datetime.now()] returns it. *)
Record datetime : Type := mkDatetime {
  year : nat; month : nat; day : nat;
  hour : nat; minute : nat; second : nat; microsecond : nat
}.

Definition digit (n : nat) : ascii := ascii_of_nat (48 + n mod 10).

(** [%02d], [%04d], [%06d] on the fields of a [datetime], each of which is
    below 100, 10000, 1000000. *)
Definition pad2 (n : nat) : string :=
  String (digit (n / 10)) (String (digit n) "").
Definition pad4 (n : nat) : string := pad2 (n / 100) +++ pad2 n.
Definition pad6 (n : nat) : string := pad2 (n / 100 / 100) +++ pad4 n.

(** [d.isoformat()]: [YYYY-MM-DDTHH:MM:SS], followed by [.ffffff] when the
    microsecond is not zero. *)
Definition isoformat (d : datetime) : string :=
  pad4 (year d) +++ "-" +++ pad2 (month d) +++ "-" +++ pad2 (day d) +++ "T"
  +++ pad2 (hour d) +++ ":" +++ pad2 (minute d) +++ ":" +++ pad2 (second d)
  +++ (if Nat.eqb (microsecond d) 0 then "" else "." +++ pad6 (microsecond d)).

(** [d.strftime('%Y-%m-%d %H:%M:%S')] and [d.strftime('%Y%m%d_%H%M%S')]. *)
Definition strftime_report (d : datetime) : string :=
  pad4 (year d) +++ "-" +++ pad2 (month d) +++ "-" +++ pad2 (day d) +++ " "
  +++ pad2 (hour d) +++ ":" +++ pad2 (minute d) +++ ":" +++ pad2 (second d).
Definition strftime_file (d : datetime) : string :=
  pad4 (year d) +++ pad2 (month d) +++ pad2 (day d) +++ "_"
  +++ pad2 (hour d) +++ pad2 (minute d) +++ pad2 (second d).

(** [time.time()] returns a [float], an IEEE 754 binary64 number, and the
    arithmetic on the readings is that of binary64.  The number a finite
    float stands for: *)
Definition SF_value (f : spec_float) : Q :=
  match f with
  | S754_finite s m e => (inject_Z (cond_Zopp s (Zpos m)) * Qpower 2 e)%Q
  | _ => 0%Q
  end.

Definition float_value (x : float) : Q := SF_value (Prim2SF x).

Definition is_finite (x : float) : bool :=
  match Prim2SF x with
  | S754_zero _ | S754_finite _ _ _ => true
  | _ => false
  end.

(** The integer nearest to [x], a tie going to the even one. *)
Definition round_half_even (x : Q) : Z :=
  let f := Qfloor x in
  match ((x - inject_Z f) ?= (1 # 2))%Q with
  | Lt => f
  | Gt => f + 1
  | Eq => if Z.even f then f else f + 1
  end.

(** The float nearest to [k / 100]: the quotient of the two integers is
    rounded once, to nearest with a tie to the even mantissa. *)
Definition float_of_hundredths (k : Z) : spec_float :=
  match k with
  | Z0 => S754_zero false
  | Zpos p => SF64div (S754_finite false p 0) (S754_finite false 100 0)
  | Zneg p => SF64div (S754_finite true p 0) (S754_finite false 100 0)
  end.

(** [round(x, 2)] for a float [x]: CPython rounds the exact decimal
    expansion of [x] to two places, a tie to the even digit, and returns the
    float nearest to that decimal.  The result is given by the number it
    stands for.  Of an infinity or a NaN, which [round] returns unchanged,
    no number is given. *)
Definition round2 (x : float) : Q :=
  if is_finite x
  then SF_value (float_of_hundredths (round_half_even (float_value x * 100)))
  else 0%Q.

(* ------------------------------------------------------------------ *)
(** ** URLPoller *)

(** [self.timeout] and [self.max_workers]; [self.session] is the HTTP client
    whose answers are the oracle below. *)
Record URLPoller : Type := mkPoller {
  timeout : Z;
  max_workers : Z
}.

Record Response : Type := mkResponse { status_code : Z }.

(** What one call of [check_url] observes: [datetime.now()], the first
    [time.time()], the outcome of [session.get], the second [time.time()].
    The readings of a clock are finite floats, seconds since the epoch, and
    their difference in milliseconds is far from the largest float: no
    infinity and no NaN arises from them. *)
Record Observation : Type := mkObs {
  obs_now : datetime;
  obs_start_time : float;
  obs_get : PyExc + Response;
  obs_end_time : float;
  obs_finite :
    is_finite obs_start_time && is_finite obs_end_time
    && is_finite ((obs_end_time - obs_start_time) * 1000)%float = true
}.

Definition session_get (o : Observation) (url : string) (tmo : Z) : M Response :=
  emit (HttpGet url tmo) ;;;
  match obs_get o with
  | inl e => raise e
  | inr response => ret response
  end.

Definition check_url (self : URLPoller) (name url : string) (o : Observation)
  : M PyDict :=
  let result : PyDict :=
    [ ("name", VStr name);
      ("url", VStr url);
      ("status", VStr "unknown");
      ("status_code", VNone);
      ("response_time", VNone);
      ("error", VNone);
      ("timestamp", VStr (isoformat (obs_now o))) ] in
  try_except
    (let start_time := obs_start_time o in
     response <- session_get o url (timeout self) ;;
     let end_time := obs_end_time o in
     let result := dict_set result "status_code" (VInt (status_code response)) in
     let result :=
       dict_set result "response_time"
         (VFloat (round2 ((end_time - start_time) * 1000)%float)) in
     ret (if status_code response =? 200 then
            dict_set result "status" (VStr "up")
          else if (300 <=? status_code response) && (status_code response <? 400) then
            dict_set result "status" (VStr "redirect")
          else if (400 <=? status_code response) && (status_code response <? 500) then
            dict_set result "status" (VStr "client_error")
          else if (500 <=? status_code response) && (status_code response <? 600) then
            dict_set result "status" (VStr "server_error")
          else
            dict_set result "status" (VStr "unknown")))
    [ (Timeout, fun _ =>
         let result := dict_set result "status" (VStr "timeout") in
         ret (dict_set result "error"
                (VStr ("Request timed out after " +++ str_int (timeout self)
                       +++ " seconds"))));
      (ConnectionError, fun _ =>
         let result := dict_set result "status" (VStr "connection_error") in
         ret (dict_set result "error" (VStr "Failed to connect to the server")));
      (RequestException, fun e =>
         let result := dict_set result "status" (VStr "error") in
         ret (dict_set result "error" (VStr (exc_str e))));
      (Exception_, fun e =>
         let result := dict_set result "status" (VStr "error") in
         ret (dict_set result "error" (VStr ("Unexpected error: " +++ exc_str e)))) ].

(** Everything a run obtains from outside.  For the check submitted for a
    name and url: what [check_url] observes, whether [future.result()]
    raises instead of returning, and the [datetime.now()] of the result
    substituted then.  For the pool: which of the pending futures completes
    next.  For the name of an input file: what [open] and [json.load]
    give, an exception or the value of the document.  For the name of an
    output file: the exception that [open] or [json.dump] raises, if any.
    The two remaining clocks are those of the report header and of the
    output file name. *)
Record World : Type := mkWorld {
  w_check : string -> string -> Observation;
  w_future_exc : string -> string -> option PyExc;
  w_future_now : string -> string -> datetime;
  w_completion : list nat;
  w_load : string -> PyExc + pyjson;
  w_write : string -> option PyExc;
  w_report_now : datetime;
  w_file_now : datetime
}.

(** The list without its element at position [i]. *)
Fixpoint remove_nth {A} (i : nat) (l : list A) : list A :=
  match l, i with
  | [], _ => []
  | _ :: xs, O => xs
  | x :: xs, S i' => x :: remove_nth i' xs
  end.

(** [as_completed(fs)]: the futures in the order they finish.  Each step
    takes one of the futures still pending, the oracle choosing which. *)
Fixpoint as_completed_from {A} (fuel : nat) (choices : list nat)
  (pending : list A) : list A :=
  match fuel, pending with
  | S fuel', x :: _ =>
      let i := (hd O choices mod List.length pending)%nat in
      nth i pending x :: as_completed_from fuel' (tl choices) (remove_nth i pending)
  | _, _ => []
  end.

Definition as_completed {A} (choices : list nat) (fs : list A) : list A :=
  as_completed_from (List.length fs) choices fs.

(** [sorted(xs, key=...)] for [str] keys: the keys are computed first, then
    a stable sort by [<] on the keys.  A stable sort is determined by its
    input, so insertion from the right stands for Python's. *)
Fixpoint insert_by_key {A} (k : string) (x : A) (l : list (string * A))
  : list (string * A) :=
  match l with
  | [] => [(k, x)]
  | (k', y) :: l' =>
      if String.ltb k' k then (k', y) :: insert_by_key k x l'
      else (k, x) :: (k', y) :: l'
  end.

Fixpoint sort_by_key {A} (l : list (string * A)) : list (string * A) :=
  match l with
  | [] => []
  | (k, x) :: l' => insert_by_key k x (sort_by_key l')
  end.

Fixpoint mapM {A B} (f : A -> M B) (l : list A) : M (list B) :=
  match l with
  | [] => ret []
  | x :: xs => y <- f x ;; ys <- mapM f xs ;; ret (y :: ys)
  end.

(** The key [lambda x: x['name']]; names are [str] by the annotation of
    [check_url], another value has no place in the order on [str]. *)
Definition name_key (x : PyDict) : M string :=
  v <- getitem x "name" ;;
  match v with
  | VStr s => ret s
  | _ => raise (mkExc [TypeError] "'<' not supported")
  end.

Definition sorted_by_name (results : list PyDict) : M (list PyDict) :=
  keyed <- mapM (fun x => k <- name_key x ;; ret (k, x)) results ;;
  ret (map snd (sort_by_key keyed)).

(** The dictionary substituted when [future.result()] raises. *)
Definition future_error_result (name url : string) (e : PyExc) (now : datetime)
  : PyDict :=
  [ ("name", VStr name);
    ("url", VStr url);
    ("status", VStr "error");
    ("status_code", VNone);
    ("response_time", VNone);
    ("error", VStr ("Future execution error: " +++ exc_str e));
    ("timestamp", VStr (isoformat now)) ].

(** [future.result()] of the future submitted for [(name, url)]. *)
Definition future_result (w : World) (self : URLPoller) (name url : string)
  : M PyDict :=
  match w_future_exc w name url with
  | Some e => raise e
  | None => check_url self name url (w_check w name url)
  end.

(** The loop over [as_completed(future_to_url)]. *)
Fixpoint collect (w : World) (self : URLPoller) (done : list (string * string))
  (results : list PyDict) : M (list PyDict) :=
  match done with
  | [] => ret results
  | (name, url) :: rest =>
      result <- try_except (future_result w self name url)
                  [ (Exception_, fun e =>
                       ret (future_error_result name url e
                              (w_future_now w name url))) ] ;;
      collect w self rest (results ++ [result])
  end.

(** [ThreadPoolExecutor(max_workers=n)] raises [ValueError] unless [n > 0]. *)
Definition poll_urls (w : World) (self : URLPoller) (urls : Dict string)
  : M (list PyDict) :=
  if max_workers self <=? 0 then
    raise (mkExc [ValueError] "max_workers must be greater than 0")
  else
    let future_to_url := dict_items urls in
    results <- collect w self (as_completed (w_completion w) future_to_url) [] ;;
    sorted_by_name results.

(* ------------------------------------------------------------------ *)
(** ** Reporting *)

Definition newline : string := String (ascii_of_nat 10) "".

Fixpoint str_mul (s : string) (n : nat) : string :=
  match n with
  | O => ""
  | S n' => s +++ str_mul s n'
  end.

Definition str_nat (n : nat) : string := str_int (Z.of_nat n).

Definition status_symbols : Dict string :=
  [ ("up", "‚úÖ");
    ("down", "‚ùå");
    ("timeout", "‚è∞");
    ("connection_error", "üîå");
    ("redirect", "‚ÜóÔ∏è");
    ("client_error", "4Ô∏è‚É£");
    ("server_error", "5Ô∏è‚É£");
    ("error", "‚ùå");
    ("unknown", "‚ùì") ].

(** [status_symbols.get(v, default)]. *)
Definition symbol_of (v : PyVal) (default : string) : string :=
  match v with
  | VStr s => match dict_get status_symbols s with
              | Some sym => sym
              | None => default
              end
  | _ => default
  end.

(** [f"{v:<30}"]: [None] accepts no format specification. *)
Definition format_left (v : PyVal) : M PyVal :=
  match v with
  | VNone => raise (mkExc [TypeError]
                      "unsupported format string passed to NoneType.__format__")
  | _ => ret v
  end.

Definition when (b : bool) (m : M unit) : M unit := if b then m else ret tt.

Fixpoint for_each {A} (l : list A) (body : A -> M unit) : M unit :=
  match l with
  | [] => ret tt
  | x :: xs => body x ;;; for_each xs body
  end.

(** The body of the loop of [print_results] for one result. *)
Definition print_result (show_details : bool) (result : PyDict) : M unit :=
  status <- getitem result "status" ;;
  let symbol := symbol_of status "‚ùì" in
  name <- getitem result "name" ;;
  name <- format_left name ;;
  url <- getitem result "url" ;;
  url <- format_left url ;;
  print (ResultLine symbol name url) ;;;
  when show_details
    (sc <- getitem result "status_code" ;;
     when (truthy sc) (print (StatusCodeLine sc)) ;;;
     rt <- getitem result "response_time" ;;
     when (truthy rt) (print (ResponseTimeLine rt)) ;;;
     err <- getitem result "error" ;;
     when (truthy err) (print (ErrorLine err)) ;;;
     print (Text "")).

Definition print_results (w : World) (results : list PyDict)
  (show_details : bool) : M unit :=
  print (Text (newline +++ str_mul "=" 80)) ;;;
  print (Text ("URL POLLING RESULTS - " +++ strftime_report (w_report_now w))) ;;;
  print (Text (str_mul "=" 80)) ;;;
  statuses <- mapM (fun r => getitem r "status") results ;;
  let up_count := List.length (filter (fun s => eq_str s "up") statuses) in
  let total_count := List.length results in
  print (Text ("Summary: " +++ str_nat up_count +++ "/" +++ str_nat total_count
               +++ " URLs are responding")) ;;;
  print (Text "") ;;;
  for_each results (print_result show_details).

(* ------------------------------------------------------------------ *)
(** ** The script *)

Definition json_of_val (v : PyVal) : json_scalar :=
  match v with
  | VNone => JNull
  | VStr s => JString s
  | VInt z => JInt z
  | VFloat q => JFloat q
  end.

(** [json.dump(results, f, indent=2)]: the members in insertion order. *)
Definition json_dump (results : list PyDict) : json_array :=
  map (map (fun kv => (fst kv, json_of_val (snd kv)))) results.

(** [for item in urls: urls_dict[item['caption']] = item['url']]. *)
Fixpoint build_urls_dict (urls : list (Dict string)) (urls_dict : Dict string)
  : M (Dict string) :=
  match urls with
  | [] => ret urls_dict
  | item :: rest =>
      url <- getitem item "url" ;;
      caption <- getitem item "caption" ;;
      build_urls_dict rest (dict_set urls_dict caption url)
  end.

(** [for item in urls], [urls] being what [json.load] returned: a list
    gives its items, a dict its keys, a str its characters; no other value
    is iterable. *)
Definition iterate (v : pyjson) : M (list pyjson) :=
  match v with
  | JsList l => ret l
  | JsDict d => ret (map (fun kv => JsStr (fst kv)) d)
  | JsStr s => ret (map (fun c => JsStr (String c "")) (list_ascii_of_string s))
  | _ => raise (mkExc [TypeError]
                  ("'" +++ type_name v +++ "' object is not iterable"))
  end.

(** [item[k]] for a [str] key [k]: only a dict is indexed by a str. *)
Definition subscript (item : pyjson) (k : string) : M pyjson :=
  match item with
  | JsDict d => getitem d k
  | JsStr _ =>
      raise (mkExc [TypeError] "string indices must be integers, not 'str'")
  | JsList _ =>
      raise (mkExc [TypeError]
               "list indices must be integers or slices, not str")
  | _ => raise (mkExc [TypeError]
                  ("'" +++ type_name item +++ "' object is not subscriptable"))
  end.

(** A list or a dict is no key of a dict. *)
Definition hashable (v : pyjson) : bool :=
  match v with
  | JsList _ | JsDict _ => false
  | _ => true
  end.

(** The same loop over the items of a loaded document.  The mapping is
    followed as long as every caption and url stored is a [str]: [None]
    stands for a mapping that is not a [Dict[str, str]]. *)
Fixpoint build_urls_dict_json (items : list pyjson)
  (urls_dict : option (Dict string)) : M (option (Dict string)) :=
  match items with
  | [] => ret urls_dict
  | item :: rest =>
      url <- subscript item "url" ;;
      caption <- subscript item "caption" ;;
      if hashable caption then
        build_urls_dict_json rest
          match urls_dict, caption, url with
          | Some d, JsStr caption, JsStr url => Some (dict_set d caption url)
          | _, _, _ => None
          end
      else
        raise (mkExc [TypeError]
                 ("unhashable type: '" +++ type_name caption +++ "'"))
  end.

(** The statements shared by [main] and the file branch of the script:
    poll, print, save.  [open(output_file, 'w')] and [json.dump] are not
    guarded: what they raise ends the run before the last line is printed;
    what a failed write leaves of the file is not recorded. *)
Definition poll_print_save (w : World) (poller : URLPoller)
  (urls_dict : Dict string) : M (list PyDict) :=
  results <- poll_urls w poller urls_dict ;;
  print_results w results true ;;;
  let output_file :=
    "url_poll_results_" +++ strftime_file (w_file_now w) +++ ".json" in
  match w_write w output_file with
  | Some e => raise e
  | None => emit (FileWrite output_file (json_dump results))
  end ;;;
  print (Text (newline +++ "Results saved to: " +++ output_file)) ;;;
  ret results.

Definition example_urls : list (Dict string) :=
  [ [("url", "https://www.google.com"); ("caption", "Google")];
    [("url", "https://www.amazon.com"); ("caption", "Amazon")];
    [("url", "https://www.github.com"); ("caption", "Github")] ].

(** [sum(1 for r in results if r['status'] not in ['up', 'redirect'])]. *)
Definition failed_count (results : list PyDict) : M Z :=
  statuses <- mapM (fun r => getitem r "status") results ;;
  ret (Z.of_nat (List.length
         (filter (fun s => negb (eq_str s "up" || eq_str s "redirect")) statuses))).

Definition main (w : World) : M Z :=
  let urls := example_urls in
  let poller := mkPoller 10 5 in
  print (Text "Starting URL polling...") ;;;
  print (Text ("Checking " +++ str_nat (List.length urls) +++ " URLs with "
               +++ str_int (max_workers poller) +++ " concurrent workers")) ;;;
  urls_dict <- build_urls_dict urls [] ;;
  print (DictRepr urls_dict) ;;;
  results <- poll_print_save w poller urls_dict ;;
  failed_count results.

Definition load_urls_from_file (w : World) (filename : string) : M pyjson :=
  try_except
    (match w_load w filename with
     | inl e => raise e
     | inr v => ret v
     end)
    [ (FileNotFoundError, fun _ =>
         print (Text ("Error: File '" +++ filename +++ "' not found")) ;;;
         sys_exit 1);
      (JSONDecodeError, fun _ =>
         print (Text ("Error: Invalid JSON in file '" +++ filename +++ "'")) ;;;
         sys_exit 1) ].

(** The [if __name__ == "__main__":] block, [argv] being [sys.argv]. *)
Definition script (w : World) (argv : list string) : M unit :=
  if (1 <? List.length argv)%nat then
    urls <- load_urls_from_file w (nth 1 argv "") ;;
    items <- iterate urls ;;
    urls_dict <- build_urls_dict_json items (Some []) ;;
    match urls_dict with
    | Some urls_dict =>
        print (DictRepr urls_dict) ;;;
        let poller := mkPoller 10 5 in
        _ <- poll_print_save w poller urls_dict ;;
        ret tt
    | None => untyped
    end
  else
    exit_code <- main w ;;
    sys_exit exit_code.

(** The exit status of the interpreter: the argument of [sys.exit], 1 after
    an uncaught exception, 0 when the script runs to its end.  A run that
    is not followed to its end has no status: -1 stands for none. *)
Definition exit_status (m : M unit) : Z :=
  match outcome m with
  | inr _ => 0
  | inl (SystemExit code) => code
  | inl (Raise _) => 1
  | inl Untyped => -1
  end.


(* ------------------------------------------------------------------ *)
(** ** Vocabulary of the properties and sample inputs *)

(** The keys of a result dictionary, in insertion order. *)
Definition result_keys : list string :=
  ["name"; "url"; "status"; "status_code"; "response_time"; "error"; "timestamp"].

(** The values the ['status'] entry takes. *)
Definition statuses : list string :=
  ["up"; "redirect"; "client_error"; "server_error"; "unknown";
   "timeout"; "connection_error"; "error"].

Definition sample_now : datetime := mkDatetime 2024 3 9 14 5 7 0.
Definition sample_poller : URLPoller := mkPoller 10 5.

(** A request answered with [code] after half a second. *)
Definition obs_status (code : Z) : Observation :=
  mkObs sample_now 1%float (inr (mkResponse code)) 1.5%float eq_refl.

(** A request that raises an instance of the classes [cs]. *)
Definition obs_raise (cs : list ExcClass) (msg : string) : Observation :=
  mkObs sample_now 1%float (inl (mkExc cs msg)) 1.5%float eq_refl.

(** A request answered with 200 while the wall clock is set back by one
    second between the two readings of [time.time()]. *)
Definition obs_clock_set_back : Observation :=
  mkObs sample_now 10%float (inr (mkResponse 200)) 9%float eq_refl.

(** The elapsed time as [check_url] computes it, in binary64:
    [(end_time - start_time) * 1000]. *)
Definition elapsed_ms (o : Observation) : float :=
  ((obs_end_time o - obs_start_time o) * 1000)%float.

(** A float that is not below zero. *)
Definition SF_nonneg (f : spec_float) : Prop :=
  match f with
  | S754_zero _ | S754_nan => True
  | S754_infinity s | S754_finite s _ _ => s = false
  end.

(** A zero or a finite number, neither an infinity nor a NaN. *)
Definition SF_finite (f : spec_float) : Prop :=
  match f with
  | S754_zero _ | S754_finite _ _ _ => True
  | _ => False
  end.

(** The order [sorted] puts the names in: [a <= b] on [str]. *)
Definition str_le (a b : string) : Prop := String.leb a b = true.
Definition key_le {A} (p q : string * A) : Prop := str_le (fst p) (fst q).

(** The dictionary the loop of [poll_urls] appends for the future submitted
    for [(name, url)]: the one [check_url] returns, or the substituted one
    when [future.result()] raises. *)
Definition expected_result (w : World) (self : URLPoller) (name url : string)
  (r : PyDict) : Prop :=
  match w_future_exc w name url with
  | None => outcome (check_url self name url (w_check w name url)) = inr r
  | Some e => r = future_error_result name url e (w_future_now w name url)
  end.

(** The world [w] with the thread pool finishing its futures in the order
    [choices] selects. *)
Definition with_completion (w : World) (choices : list nat) : World :=
  mkWorld (w_check w) (w_future_exc w) (w_future_now w) choices (w_load w)
    (w_write w) (w_report_now w) (w_file_now w).

(** What [json.load] returns for an array of objects whose members are
    strings. *)
Definition json_of_item (item : Dict string) : pyjson :=
  JsDict (map (fun kv => (fst kv, JsStr (snd kv))) item).

Definition json_of_items (urls : list (Dict string)) : pyjson :=
  JsList (map json_of_item urls).

(** A world in which Amazon times out, Docs answers 404, Down refuses the
    connection, the future of Github raises, and every other endpoint
    answers 200; the only input file is [urls.json], and every output file
    can be written. *)
Definition sample_world : World :=
  mkWorld
    (fun name _ =>
       if String.eqb name "Amazon"
       then obs_raise [Timeout; RequestException] "read timed out"
       else if String.eqb name "Docs" then obs_status 404
       else if String.eqb name "Down"
       then obs_raise [ConnectionError; RequestException] "connection refused"
       else obs_status 200)
    (fun name _ =>
       if String.eqb name "Github" then Some (mkExc [] "worker lost") else None)
    (fun _ _ => sample_now)
    [2; 0; 1]%nat
    (fun filename =>
       if String.eqb filename "urls.json"
       then inr (json_of_items
                   [ [("url", "https://example.org/down"); ("caption", "Down")] ])
       else inl (mkExc [FileNotFoundError] "No such file or directory"))
    (fun _ => None)
    sample_now
    sample_now.

Definition sample_urls : Dict string :=
  [ ("b", "https://example.org/b");
    ("Github", "https://www.github.com");
    ("Amazon", "https://www.amazon.com");
    ("B", "https://example.org/B") ].

(** A detail line is printed for a field of [result] whose value is true. *)
Definition detail_line_ok (result : PyDict) (e : Event) : Prop :=
  match e with
  | Stdout (StatusCodeLine v) =>
      dict_get result "status_code" = Some v /\ truthy v = true
  | Stdout (ResponseTimeLine v) =>
      dict_get result "response_time" = Some v /\ truthy v = true
  | Stdout (ErrorLine v) =>
      dict_get result "error" = Some v /\ truthy v = true
  | Stdout _ => True
  | _ => False
  end.

(** The lines [print_results] prints for one result when details are shown:
    the line of the result, a line per field whose value is true, an empty
    line. *)
Definition detail_lines (status name url sc rt err : PyVal) : list Event :=
  [Stdout (ResultLine (symbol_of status "‚ùì") name url)]
  ++ (if truthy sc then [Stdout (StatusCodeLine sc)] else [])
  ++ (if truthy rt then [Stdout (ResponseTimeLine rt)] else [])
  ++ (if truthy err then [Stdout (ErrorLine err)] else [])
  ++ [Stdout (Text "")].

(** ISO 8601 date and time in the extended format:
    [YYYY-MM-DDThh:mm:ss], optionally followed by [.ffffff]. *)
Definition is_digit (c : ascii) : bool :=
  (48 <=? nat_of_ascii c)%nat && (nat_of_ascii c <=? 57)%nat.

Inductive Pat : Type :=
| Digit
| Char (c : ascii).

Fixpoint matches (p : list Pat) (s : string) : bool :=
  match p, s with
  | [], EmptyString => true
  | Digit :: p', String c s' => is_digit c && matches p' s'
  | Char c' :: p', String c s' => Ascii.eqb c c' && matches p' s'
  | _, _ => false
  end.

Definition iso8601_seconds : list Pat :=
  [ Digit; Digit; Digit; Digit; Char "-"; Digit; Digit; Char "-"; Digit; Digit;
    Char "T"; Digit; Digit; Char ":"; Digit; Digit; Char ":"; Digit; Digit ].

Definition iso8601_microseconds : list Pat :=
  iso8601_seconds ++ [ Char "."; Digit; Digit; Digit; Digit; Digit; Digit ].

Definition iso8601 (s : string) : bool :=
  matches iso8601_seconds s || matches iso8601_microseconds s.

(** An object of the output file: the seven members in this order, the
    three optional ones [null] or of their type, the timestamp in ISO 8601. *)
Definition json_result_ok (obj : json_object) : Prop :=
  exists name url status sc rt err ts,
    obj = [ ("name", JString name); ("url", JString url);
            ("status", JString status); ("status_code", sc);
            ("response_time", rt); ("error", err);
            ("timestamp", JString ts) ] /\
    (sc = JNull \/ exists z, sc = JInt z) /\
    (rt = JNull \/ exists q, rt = JFloat q) /\
    (err = JNull \/ exists s, err = JString s) /\
    iso8601 ts = true.

Definition is_http_get (e : Event) : Prop :=
  match e with HttpGet _ _ => True | _ => False end.

Definition is_stdout (e : Event) : Prop :=
  match e with Stdout _ => True | _ => False end.

(** The files a run writes. *)
Definition file_writes (t : list Event) : list (string * json_array) :=
  flat_map (fun e => match e with
                     | FileWrite path content => [(path, content)]
                     | _ => []
                     end) t.

(** Every file a run writes holds only objects of the shape above. *)
Definition file_write_ok (e : Event) : Prop :=
  match e with
  | FileWrite _ content => Forall json_result_ok content
  | _ => True
  end.

(** A result whose status is neither ['up'] nor ['redirect']. *)
Definition unhealthy (r : PyDict) : bool :=
  match dict_get r "status" with
  | Some s => negb (eq_str s "up" || eq_str s "redirect")
  | None => false
  end.

(** A result dictionary as [poll_urls] returns them: the seven keys, and
    strings under ['name'], ['url'] and ['status']. *)
Definition complete (r : PyDict) : Prop :=
  dict_keys r = result_keys /\
  (exists name, dict_get r "name" = Some (VStr name)) /\
  (exists url, dict_get r "url" = Some (VStr url)) /\
  (exists status, dict_get r "status" = Some (VStr status)).

(** A result dictionary that [print_results] prints: the seven keys are
    present, and neither the name nor the url is [None], which accepts no
    format specification. *)
Definition printable (r : PyDict) : Prop :=
  (forall k, In k result_keys -> dict_get r k <> None) /\
  dict_get r "name" <> Some VNone /\
  dict_get r "url" <> Some VNone.

(** The mapping [main] builds from its example list. *)
Definition example_urls_dict : Dict string :=
  [ ("Google", "https://www.google.com");
    ("Amazon", "https://www.amazon.com");
    ("Github", "https://www.github.com") ].

(** A result answered with 200 in half a second, and one whose status code
    and response time are present and zero. *)
Definition sample_result_up : PyDict :=
  [ ("name", VStr "Home"); ("url", VStr "https://example.org/");
    ("status", VStr "up"); ("status_code", VInt 200);
    ("response_time", VFloat (50000 # 100)); ("error", VNone);
    ("timestamp", VStr "2024-03-09T14:05:07") ].

Definition sample_result_zero : PyDict :=
  [ ("name", VStr "Zero"); ("url", VStr "https://example.org/0");
    ("status", VStr "unknown"); ("status_code", VInt 0);
    ("response_time", VFloat 0); ("error", VNone);
    ("timestamp", VStr "2024-03-09T14:05:07") ].


(** The keys the specification names for an object of the output file. *)
Definition specified_keys : list string :=
  ["name"; "url"; "status"; "status_code"; "response_time_ms"; "error";
   "timestamp"].

(** An element of the input file that has both of its keys. *)
Definition item_ok (item : Dict string) : Prop :=
  (exists url, dict_get item "url" = Some url) /\
  (exists caption, dict_get item "caption" = Some caption).

(** An item of a loaded document that the loop stores: an object with both
    keys whose caption can be the key of a dict. *)
Definition item_stored (item : pyjson) : Prop :=
  exists d url caption,
    item = JsDict d /\
    dict_get d "url" = Some url /\
    dict_get d "caption" = Some caption /\
    hashable caption = true.

(** The key an object lacks, ['url'] being read before ['caption']. *)
Definition missing_key (item : pyjson) : option string :=
  match item with
  | JsDict d =>
      match dict_get d "url", dict_get d "caption" with
      | None, _ => Some "url"
      | Some _, None => Some "caption"
      | Some _, Some _ => None
      end
  | _ => None
  end.

(* ------------------------------------------------------------------ *)
(** ** Vocabulary of the further properties *)

(** The value under a key, [None] standing for an absent key. *)
Definition get_or_none (r : PyDict) (k : string) : PyVal :=
  match dict_get r k with
  | Some v => v
  | None => VNone
  end.

(** A poller-independent sample of a request that is refused. *)
Definition obs_refused : Observation :=
  obs_raise [ConnectionError; RequestException] "connection refused".

(** The requests of the futures [done], in that order: one for each future
    that does not raise. *)
Definition requests_of (w : World) (self : URLPoller)
  (done : list (string * string)) : list Event :=
  flat_map (fun ep => match w_future_exc w (fst ep) (snd ep) with
                      | None => [HttpGet (snd ep) (timeout self)]
                      | Some _ => []
                      end) done.

(** [sample_world] with no future raising. *)
Definition quiet_world : World :=
  mkWorld (w_check sample_world) (fun _ _ => None) (w_future_now sample_world)
    (w_completion sample_world) (w_load sample_world) (w_write sample_world)
    (w_report_now sample_world) (w_file_now sample_world).

(** The lines [print_results] prints before the summary. *)
Definition report_header (w : World) : list Event :=
  [ Stdout (Text (newline +++ str_mul "=" 80));
    Stdout (Text ("URL POLLING RESULTS - " +++ strftime_report (w_report_now w)));
    Stdout (Text (str_mul "=" 80)) ].

(** A result whose status is ['up']. *)
Definition is_up (r : PyDict) : bool := eq_str (get_or_none r "status") "up".

(** The summary and the empty line after it: the results that are ['up']
    over all results. *)
Definition summary_lines (results : list PyDict) : list Event :=
  [ Stdout (Text ("Summary: " +++ str_nat (List.length (filter is_up results))
                  +++ "/" +++ str_nat (List.length results)
                  +++ " URLs are responding"));
    Stdout (Text "") ].

(** The lines of one result: with details the line of the result, a line
    per field whose value is true and an empty line; without, the line of
    the result alone.  The default of [status_symbols.get] is the symbol of
    ['unknown']. *)
Definition result_lines (show_details : bool) (r : PyDict) : list Event :=
  if show_details then
    detail_lines (get_or_none r "status") (get_or_none r "name")
      (get_or_none r "url") (get_or_none r "status_code")
      (get_or_none r "response_time") (get_or_none r "error")
  else
    [ Stdout (ResultLine (symbol_of (get_or_none r "status")
                            (symbol_of (VStr "unknown") ""))
                (get_or_none r "name") (get_or_none r "url")) ].

(** A result dictionary without its status. *)
Definition sample_result_no_status : PyDict :=
  [ ("name", VStr "Home"); ("url", VStr "https://example.org/") ].

(** What [poll_urls] returns for the sample mapping in the sample world. *)
Definition sample_results : list PyDict :=
  Eval vm_compute in
    match outcome (poll_urls sample_world sample_poller sample_urls) with
    | inr results => results
    | inl _ => []
    end.

(** The url of the last item of [urls] whose caption is [caption]. *)
Fixpoint url_of_caption (urls : list (Dict string)) (caption : string)
  : option string :=
  match urls with
  | [] => None
  | item :: rest =>
      match url_of_caption rest caption with
      | Some url => Some url
      | None =>
          match dict_get item "caption" with
          | Some c => if String.eqb c caption then dict_get item "url" else None
          | None => None
          end
      end
  end.

(** An input list in which two items share a caption, and one with an item
    that has no url. *)
Definition sample_items_shared_caption : list (Dict string) :=
  [ [("url", "https://old.example.org"); ("caption", "Site")];
    [("url", "https://example.org/b"); ("caption", "Other")];
    [("url", "https://new.example.org"); ("caption", "Site")] ].

Definition sample_items_no_url : list (Dict string) :=
  [ [("url", "https://example.org/a"); ("caption", "A")];
    [("caption", "B")] ].

(** [sample_world] with every file unreadable, and with [items.json]
    holding [sample_items_no_url]. *)
Definition locked_world : World :=
  mkWorld (w_check sample_world) (w_future_exc sample_world)
    (w_future_now sample_world) (w_completion sample_world)
    (fun _ => inl (mkExc [] "[Errno 13] Permission denied"))
    (w_write sample_world)
    (w_report_now sample_world) (w_file_now sample_world).

Definition no_url_world : World :=
  mkWorld (w_check sample_world) (w_future_exc sample_world)
    (w_future_now sample_world) (w_completion sample_world)
    (fun _ => inr (json_of_items sample_items_no_url))
    (w_write sample_world)
    (w_report_now sample_world) (w_file_now sample_world).

(** [sample_world] with the input file in the format the docstring of
    [load_urls_from_file] gives, an object of names and urls. *)
Definition documented_world : World :=
  mkWorld (w_check sample_world) (w_future_exc sample_world)
    (w_future_now sample_world) (w_completion sample_world)
    (fun _ => inr (JsDict [ ("name1", JsStr "https://example1.com");
                            ("name2", JsStr "https://example2.com") ]))
    (w_write sample_world)
    (w_report_now sample_world) (w_file_now sample_world).

(** [sample_world] on a file system that cannot be written. *)
Definition read_only_world : World :=
  mkWorld (w_check sample_world) (w_future_exc sample_world)
    (w_future_now sample_world) (w_completion sample_world)
    (w_load sample_world)
    (fun _ => Some (mkExc [] "[Errno 30] Read-only file system"))
    (w_report_now sample_world) (w_file_now sample_world).

(** The name of the output file. *)
Definition output_file (w : World) : string :=
  "url_poll_results_" +++ strftime_file (w_file_now w) +++ ".json".

(* ================================================================== *)
(** * Properties *)

(** ** The statement monad *)

Lemma bind_inr {A B} (m : M A) (f : A -> M B) t a :
  m = (t, inr a) -> bind m f = (t ++ trace (f a), outcome (f a)).
Proof.
  intros ->. unfold bind, trace, outcome. now destruct (f a).
Qed.

Lemma isinstance_Exception e : isinstance e Exception_ = true.
Proof. reflexivity. Qed.

(** ** check_url *)

#[local] Arguments isoformat : simpl never.
#[local] Arguments str_int : simpl never.
#[local] Arguments round2 : simpl never.
#[local] Arguments isinstance : simpl never.
#[local] Arguments String.append : simpl never.

(** What [check_url] returns when the request is answered. *)
Lemma check_url_response self name url o r :
  obs_get o = inr r ->
  exists status,
    check_url self name url o =
      ([HttpGet url (timeout self)],
       inr [ ("name", VStr name); ("url", VStr url); ("status", VStr status);
             ("status_code", VInt (status_code r));
             ("response_time",
              VFloat (round2 (elapsed_ms o)));
             ("error", VNone);
             ("timestamp", VStr (isoformat (obs_now o))) ]) /\
    status =
      (if status_code r =? 200 then "up"
       else if (300 <=? status_code r) && (status_code r <? 400) then "redirect"
       else if (400 <=? status_code r) && (status_code r <? 500) then "client_error"
       else if (500 <=? status_code r) && (status_code r <? 600) then "server_error"
       else "unknown").
Proof.
  intros Hget. eexists. split; [| reflexivity].
  unfold check_url, session_get. rewrite Hget. cbn.
  repeat match goal with |- context [if ?b then _ else _] => destruct b end;
    reflexivity.
Qed.

(** What [check_url] returns when the request raises. *)
Lemma check_url_raises self name url o e :
  obs_get o = inl e ->
  exists status error,
    check_url self name url o =
      ([HttpGet url (timeout self)],
       inr [ ("name", VStr name); ("url", VStr url); ("status", VStr status);
             ("status_code", VNone); ("response_time", VNone);
             ("error", VStr error);
             ("timestamp", VStr (isoformat (obs_now o))) ]) /\
    (status, error) =
      (if isinstance e Timeout then
         ("timeout", "Request timed out after " +++ str_int (timeout self)
                     +++ " seconds")
       else if isinstance e ConnectionError then
         ("connection_error", "Failed to connect to the server")
       else if isinstance e RequestException then ("error", exc_str e)
       else ("error", "Unexpected error: " +++ exc_str e)).
Proof.
  intros Hget.
  unfold check_url, session_get. rewrite Hget. cbn.
  rewrite isinstance_Exception.
  destruct (isinstance e Timeout), (isinstance e ConnectionError),
    (isinstance e RequestException); cbn; do 2 eexists; split; reflexivity.
Qed.

(** In both cases [check_url] sends one request and returns a dictionary
    of one shape. *)
Lemma check_url_shape self name url o :
  exists status sc rt err,
    check_url self name url o =
      ([HttpGet url (timeout self)],
       inr [ ("name", VStr name); ("url", VStr url); ("status", VStr status);
             ("status_code", sc); ("response_time", rt); ("error", err);
             ("timestamp", VStr (isoformat (obs_now o))) ]) /\
    In status statuses /\
    (sc = VNone \/ exists z, sc = VInt z) /\
    (rt = VNone \/ exists q, rt = VFloat q) /\
    (err = VNone \/ exists s, err = VStr s).
Proof.
  destruct (obs_get o) as [e | r] eqn:Hget.
  - destruct (check_url_raises self name url o e Hget)
      as (status & err & Heq & Hse).
    exists status, VNone, VNone, (VStr err). split; [exact Heq |].
    split; [| repeat split; eauto].
    destruct (isinstance e Timeout), (isinstance e ConnectionError),
      (isinstance e RequestException); injection Hse as -> _; cbn; tauto.
  - destruct (check_url_response self name url o r Hget) as (status & Heq & Hst).
    exists status, (VInt (status_code r)),
      (VFloat (round2 (elapsed_ms o))), VNone.
    split; [exact Heq |]. split; [| repeat split; eauto].
    subst status.
    repeat match goal with
      | |- context [if ?b then _ else _] => destruct b
      end; cbn; tauto.
Qed.

(** ** Rounding to two decimals *)

Lemma binary_round_aux_nonneg m e l :
  SF_nonneg (binary_round_aux prec emax false m e l).
Proof.
  unfold binary_round_aux.
  destruct (shr_fexp prec emax m e l) as [mrs' e'].
  destruct (shr_fexp prec emax _ e' loc_Exact) as [mrs'' e''].
  destruct (shr_m mrs''); [exact I | | exact I].
  destruct (Z.leb e'' _); reflexivity.
Qed.

Lemma binary_round_nonneg m e : SF_nonneg (binary_round prec emax false m e).
Proof.
  unfold binary_round. destruct (shl_align m e _). apply binary_round_aux_nonneg.
Qed.

Lemma SF_value_nonneg f : SF_nonneg f -> (0 <= SF_value f)%Q.
Proof.
  destruct f as [s | s | | s m e]; cbn; try (intros; apply Qle_refl).
  intros ->. cbn. apply Qmult_le_0_compat; [easy |].
  apply Qpower_0_le. easy.
Qed.

Lemma shl_align_value s m e ez :
  ez <= e ->
  (SF_value (S754_finite s m e)
   == inject_Z (cond_Zopp s (Zpos (fst (shl_align m e ez)))) * Qpower 2 ez)%Q.
Proof.
  intros Hle. unfold shl_align, SF_value.
  destruct (ez - e) as [| d | d] eqn:Hd; try lia.
  - assert (ez = e) by lia. subst. reflexivity.
  - cbn [fst]. change (Pos.iter xO m d) with (shift_pos d m).
    assert (He : e = Z.pos d + ez) by lia.
    rewrite He, Qpower_plus by easy.
    assert (Hz : (inject_Z (cond_Zopp s (Z.pos (shift_pos d m)))
                  == inject_Z (cond_Zopp s (Z.pos m)) * 2 ^ Z.pos d)%Q).
    { rewrite <- (Zpower_Qpower 2 (Z.pos d)) by easy.
      rewrite <- inject_Z_mult. apply inject_Z_injective.
      rewrite shift_pos_correct. change (Z.pow_pos 2 d) with (2 ^ Z.pos d).
      destruct s; cbn [cond_Zopp]; lia. }
    rewrite Hz. ring.
Qed.

Lemma SFsub_nonneg x y :
  SF_finite x -> SF_finite y ->
  (SF_value y <= SF_value x)%Q ->
  SF_nonneg (SF64sub x y).
Proof.
  intros Hx Hy Hle.
  destruct x as [sx | sx | | sx mx ex]; try contradiction;
    destruct y as [sy | sy | | sy my ey]; try contradiction.
  - cbn. destruct sx, sy; exact I.
  - cbn in *. destruct sy; [reflexivity | exfalso].
    cbn in Hle. assert (H : (0 < inject_Z (Z.pos my) * 2 ^ ey)%Q).
    { apply Qmult_lt_0_compat; [easy | now apply Qpower_0_lt]. }
    apply (Qlt_irrefl 0). eapply Qlt_le_trans; eassumption.
  - cbn in *. destruct sx; [exfalso | reflexivity].
    cbn in Hle. assert (H : (0 < inject_Z (Z.pos mx) * 2 ^ ex)%Q).
    { apply Qmult_lt_0_compat; [easy | now apply Qpower_0_lt]. }
    assert (H' : (inject_Z (Z.neg mx) * 2 ^ ex == - (inject_Z (Z.pos mx) * 2 ^ ex))%Q).
    { change (Z.neg mx) with (- Z.pos mx). rewrite inject_Z_opp. ring. }
    rewrite H' in Hle. lra.
  - unfold SF64sub, SFsub.
    set (ez := Z.min ex ey).
    rewrite (shl_align_value sx mx ex ez), (shl_align_value sy my ey ez) in Hle
      by (unfold ez; lia).
    set (a := cond_Zopp sx _) in *. set (b := cond_Zopp sy _) in *.
    assert (Hab : b <= a).
    { assert (Hp : (0 < 2 ^ ez)%Q) by now apply Qpower_0_lt.
      apply Qmult_le_r in Hle; [| exact Hp].
      now rewrite <- Zle_Qle in Hle. }
    unfold binary_normalize. destruct (a - b) eqn:Hd; try lia.
    + exact I.
    + apply binary_round_nonneg.
Qed.

Lemma SFmul_nonneg x m e :
  SF_nonneg x -> SF_nonneg (SF64mul x (S754_finite false m e)).
Proof.
  destruct x as [sx | sx | | sx mx ex]; intros Hx;
    unfold SF64mul, SFmul; try exact I.
  - cbn in Hx. now subst.
  - cbn in Hx. subst. apply binary_round_aux_nonneg.
Qed.

Lemma float_of_hundredths_nonneg k :
  0 <= k -> SF_nonneg (float_of_hundredths k).
Proof.
  destruct k as [| p | p]; [easy | | lia]. intros _.
  unfold float_of_hundredths, SF64div, SFdiv.
  destruct (SFdiv_core_binary _ _ _ _ _ _) as [[mz ez] lz].
  apply binary_round_aux_nonneg.
Qed.

Lemma round_half_even_close (x : Q) :
  (Qabs (inject_Z (round_half_even x) - x) <= 1 # 2)%Q.
Proof.
  unfold round_half_even.
  pose proof (Qfloor_le x) as Hlo. pose proof (Qlt_floor x) as Hhi.
  set (f := Qfloor x) in *.
  rewrite inject_Z_plus in Hhi. change (inject_Z 1) with 1%Q in Hhi.
  apply Qabs_Qle_condition.
  destruct (Qcompare_spec (x - inject_Z f) (1 # 2)) as [H | H | H].
  - destruct (Z.even f); [| rewrite inject_Z_plus; change (inject_Z 1) with 1%Q];
      split; lra.
  - split; lra.
  - rewrite inject_Z_plus. change (inject_Z 1) with 1%Q. split; lra.
Qed.

Lemma round_half_even_nonneg (x : Q) : (0 <= x)%Q -> 0 <= round_half_even x.
Proof.
  intros Hx. unfold round_half_even.
  assert (Hf : 0 <= Qfloor x).
  { change 0 with (Qfloor 0). now apply Qfloor_resp_le. }
  destruct (_ ?= _)%Q; [destruct (Z.even _) | |]; lia.
Qed.

Lemma hundredths_close (v : Q) :
  (Qabs ((round_half_even (v * 100) # 100) - v) <= 1 # 200)%Q.
Proof.
  pose proof (round_half_even_close (v * 100)) as H.
  set (k := round_half_even (v * 100)) in *.
  apply Qabs_Qle_condition in H. apply Qabs_Qle_condition.
  assert (Hk : (inject_Z k == (k # 100) * 100)%Q).
  { unfold Qeq, Qmult, inject_Z. simpl. lia. }
  rewrite Hk in H. split; lra.
Qed.

Lemma round2_finite (x : float) :
  is_finite x = true ->
  exists hundredths : Z,
    round2 x = SF_value (float_of_hundredths hundredths) /\
    (Qabs ((hundredths # 100) - float_value x) <= 1 # 200)%Q.
Proof.
  intros Hfin. exists (round_half_even (float_value x * 100)).
  unfold round2. rewrite Hfin. split; [reflexivity | apply hundredths_close].
Qed.

Lemma Prim2SF_1000 : exists m e, Prim2SF 1000%float = S754_finite false m e.
Proof. vm_compute. eauto. Qed.

Lemma is_finite_SF x : is_finite x = true -> SF_finite (Prim2SF x).
Proof. unfold is_finite. now destruct (Prim2SF x). Qed.

Lemma round2_elapsed_nonneg (start_time end_time : float) :
  is_finite start_time = true ->
  is_finite end_time = true ->
  (float_value start_time <= float_value end_time)%Q ->
  (0 <= round2 ((end_time - start_time) * 1000)%float)%Q.
Proof.
  intros Hs He Hle. unfold round2.
  destruct (is_finite ((end_time - start_time) * 1000)); [| apply Qle_refl].
  apply SF_value_nonneg, float_of_hundredths_nonneg, round_half_even_nonneg.
  apply Qmult_le_0_compat; [| easy].
  unfold float_value. rewrite mul_spec, sub_spec.
  destruct Prim2SF_1000 as (m & e & ->).
  apply SF_value_nonneg, SFmul_nonneg, SFsub_nonneg;
    [now apply is_finite_SF | now apply is_finite_SF | exact Hle].
Qed.

Lemma obs_finite_elapsed o :
  is_finite (obs_start_time o) = true /\
  is_finite (obs_end_time o) = true /\
  is_finite (elapsed_ms o) = true.
Proof.
  pose proof (obs_finite o) as H.
  apply andb_true_iff in H as [H He]. apply andb_true_iff in H as [Hs Hf].
  now repeat split.
Qed.

(** Readings 0.0 and the float nearest to 0.000125, which is a little
    above it: the product with 1000 is rounded to 0.125 in binary64, a tie,
    and [round] takes it to the even hundredth 0.12, where exact arithmetic
    on the two readings gives 0.13. *)
Example round2_tie_after_rounding :
  (float_value ((0x1.0624dd2f1a9fcp-13 - 0) * 1000)%float == 1 # 8)%Q /\
  round2 ((0x1.0624dd2f1a9fcp-13 - 0) * 1000)%float
  = SF_value (float_of_hundredths 12) /\
  round_half_even
    ((float_value 0x1.0624dd2f1a9fcp-13%float - float_value 0%float)
     * 1000 * 100)%Q = 13.
Proof. repeat split; vm_compute; reflexivity. Qed.

(** C2.  When the request is answered, [check_url] stores the received code
    under ['status_code'] and classifies it: 200 is ['up'], 300-399
    ['redirect'], 400-499 ['client_error'], 500-599 ['server_error'], every
    other code ['unknown']. *)
Theorem check_url_classifies_status_code self name url o r :
  obs_get o = inr r ->
  exists result status,
    outcome (check_url self name url o) = inr result /\
    dict_get result "status_code" = Some (VInt (status_code r)) /\
    dict_get result "status" = Some (VStr status) /\
    (status_code r = 200 -> status = "up") /\
    (300 <= status_code r <= 399 -> status = "redirect") /\
    (400 <= status_code r <= 499 -> status = "client_error") /\
    (500 <= status_code r <= 599 -> status = "server_error") /\
    (status_code r <> 200 -> ~ 300 <= status_code r <= 599 ->
     status = "unknown").
Proof.
  intros Hget.
  destruct (check_url_response self name url o r Hget) as (status & Heq & Hst).
  rewrite Heq. eexists. exists status. split; [reflexivity |]. cbn.
  repeat split; try reflexivity; intros; subst status;
    repeat match goal with
      | |- context [if ?b then _ else _] => destruct b eqn:?
      end; try reflexivity; lia.
Qed.

Lemma check_url_classifies_status_code_witness :
  obs_get (obs_status 404) = inr (mkResponse 404) /\
  exists result status,
    outcome (check_url sample_poller "Docs" "https://example.org/missing"
               (obs_status 404)) = inr result /\
    dict_get result "status_code" = Some (VInt 404) /\
    dict_get result "status" = Some (VStr status) /\
    (404 = 200 -> status = "up") /\
    (300 <= 404 <= 399 -> status = "redirect") /\
    (400 <= 404 <= 499 -> status = "client_error") /\
    (500 <= 404 <= 599 -> status = "server_error") /\
    (404 <> 200 -> ~ 300 <= 404 <= 599 -> status = "unknown").
Proof.
  split; [reflexivity |].
  apply (check_url_classifies_status_code sample_poller "Docs"
           "https://example.org/missing" (obs_status 404) (mkResponse 404)).
  reflexivity.
Defined.

(** C5.  When the request exceeds the timeout, the result has status
    ['timeout'], an error message that contains the configured timeout, and
    [None] under ['status_code'] and ['response_time']. *)
Theorem check_url_timeout self name url o e :
  obs_get o = inl e ->
  isinstance e Timeout = true ->
  exists result message,
    outcome (check_url self name url o) = inr result /\
    dict_get result "status" = Some (VStr "timeout") /\
    dict_get result "error" = Some (VStr message) /\
    message = "Request timed out after " +++ str_int (timeout self) +++ " seconds" /\
    (exists before after, message = before +++ str_int (timeout self) +++ after) /\
    dict_get result "status_code" = Some VNone /\
    dict_get result "response_time" = Some VNone.
Proof.
  intros Hget Hto.
  destruct (check_url_raises self name url o e Hget) as (status & err & Heq & Hse).
  rewrite Hto in Hse. injection Hse as -> ->.
  rewrite Heq. do 2 eexists. split; [reflexivity |]. cbn.
  repeat split; try reflexivity.
  now exists "Request timed out after ", " seconds".
Qed.

Lemma check_url_timeout_witness :
  obs_get (obs_raise [Timeout; RequestException] "read timed out")
    = inl (mkExc [Timeout; RequestException] "read timed out") /\
  isinstance (mkExc [Timeout; RequestException] "read timed out") Timeout = true /\
  exists result message,
    outcome (check_url sample_poller "Slow" "https://example.org/slow"
               (obs_raise [Timeout; RequestException] "read timed out"))
      = inr result /\
    dict_get result "status" = Some (VStr "timeout") /\
    dict_get result "error" = Some (VStr message) /\
    message = "Request timed out after " +++ str_int (timeout sample_poller)
              +++ " seconds" /\
    (exists before after,
        message = before +++ str_int (timeout sample_poller) +++ after) /\
    dict_get result "status_code" = Some VNone /\
    dict_get result "response_time" = Some VNone.
Proof.
  split; [reflexivity |]. split; [reflexivity |].
  apply (check_url_timeout sample_poller "Slow" "https://example.org/slow"
           (obs_raise [Timeout; RequestException] "read timed out")
           (mkExc [Timeout; RequestException] "read timed out"));
    reflexivity.
Defined.

(** C8, as the code has it.  When the request is answered with 200, the
    result has status ['up'] and, under ['response_time'], the difference
    of the two readings of [time.time()] in milliseconds, computed in
    binary64 and rounded to two decimals: the float nearest to a number of
    hundredths that is within half a hundredth of the difference.  It is
    non-negative when the second reading is not earlier than the first. *)
Theorem check_url_up_response_time self name url o r :
  obs_get o = inr r ->
  status_code r = 200 ->
  exists result (hundredths : Z),
    outcome (check_url self name url o) = inr result /\
    dict_get result "status" = Some (VStr "up") /\
    dict_get result "response_time"
      = Some (VFloat (SF_value (float_of_hundredths hundredths))) /\
    (Qabs ((hundredths # 100) - float_value (elapsed_ms o)) <= 1 # 200)%Q /\
    ((float_value (obs_start_time o) <= float_value (obs_end_time o))%Q ->
     (0 <= SF_value (float_of_hundredths hundredths))%Q).
Proof.
  intros Hget H200.
  destruct (check_url_response self name url o r Hget) as (status & Heq & Hst).
  rewrite H200 in Hst. cbn in Hst. subst status.
  destruct (obs_finite_elapsed o) as (Hs & He & Hfin).
  destruct (round2_finite (elapsed_ms o) Hfin) as (hundredths & Hr & Hclose).
  rewrite Heq. eexists. exists hundredths.
  split; [reflexivity |]. cbn [outcome snd dict_get String.eqb Ascii.eqb Bool.eqb].
  rewrite Hr. repeat split.
  - exact Hclose.
  - intros Hle. rewrite <- Hr. now apply round2_elapsed_nonneg.
Qed.

Lemma check_url_up_response_time_witness :
  obs_get (obs_status 200) = inr (mkResponse 200) /\
  status_code (mkResponse 200) = 200 /\
  exists result (hundredths : Z),
    outcome (check_url sample_poller "Home" "https://example.org/"
               (obs_status 200)) = inr result /\
    dict_get result "status" = Some (VStr "up") /\
    dict_get result "response_time"
      = Some (VFloat (SF_value (float_of_hundredths hundredths))) /\
    (Qabs ((hundredths # 100) - float_value (elapsed_ms (obs_status 200)))
     <= 1 # 200)%Q /\
    ((float_value (obs_start_time (obs_status 200))
      <= float_value (obs_end_time (obs_status 200)))%Q ->
     (0 <= SF_value (float_of_hundredths hundredths))%Q).
Proof.
  split; [reflexivity |]. split; [reflexivity |].
  apply (check_url_up_response_time sample_poller "Home" "https://example.org/"
           (obs_status 200) (mkResponse 200)); reflexivity.
Defined.

(** C8 as stated fails: with the wall clock set back between the two
    readings, a request answered with 200 is recorded with a negative
    response time. *)
Lemma check_url_up_negative_response_time :
  exists result q,
    outcome (check_url sample_poller "Home" "https://example.org/"
               obs_clock_set_back) = inr result /\
    dict_get result "status" = Some (VStr "up") /\
    dict_get result "response_time" = Some (VFloat q) /\
    ~ (0 <= q)%Q.
Proof.
  exists [ ("name", VStr "Home"); ("url", VStr "https://example.org/");
           ("status", VStr "up"); ("status_code", VInt 200);
           ("response_time", VFloat (round2 (elapsed_ms obs_clock_set_back)));
           ("error", VNone);
           ("timestamp", VStr "2024-03-09T14:05:07") ],
         (round2 (elapsed_ms obs_clock_set_back)).
  repeat split. vm_compute. intros H. apply H. reflexivity.
Qed.

(** C9.  [check_url] returns for every name, url and outcome of the
    request, raising nothing: a dictionary with the seven keys, the given
    name and url, and one of the eight statuses. *)
Theorem check_url_total self name url o :
  exists result status,
    check_url self name url o = ([HttpGet url (timeout self)], inr result) /\
    dict_keys result = result_keys /\
    dict_get result "name" = Some (VStr name) /\
    dict_get result "url" = Some (VStr url) /\
    dict_get result "status" = Some (VStr status) /\
    In status statuses.
Proof.
  destruct (check_url_shape self name url o)
    as (status & sc & rt & err & Heq & Hin & _).
  rewrite Heq. eexists. exists status. split; [reflexivity |].
  cbn [dict_keys map fst]. split; [reflexivity |].
  repeat split; try reflexivity. exact Hin.
Qed.

(** ** The order on names *)

Lemma ascii_compare_refl c : Ascii.compare c c = Eq.
Proof. unfold Ascii.compare. apply N.compare_refl. Qed.

Lemma str_compare_refl s : String.compare s s = Eq.
Proof.
  induction s as [| c s IH]; [reflexivity |].
  simpl. now rewrite ascii_compare_refl.
Qed.

Lemma str_le_refl s : str_le s s.
Proof. unfold str_le, String.leb. now rewrite str_compare_refl. Qed.

Lemma str_le_trans a b c : str_le a b -> str_le b c -> str_le a c.
Proof.
  unfold str_le, String.leb.
  revert b c. induction a as [| x a IH]; intros [| y b] [| z c]; simpl;
    try congruence.
  unfold Ascii.compare.
  destruct (N.compare_spec (N_of_ascii x) (N_of_ascii y)) as [Hxy | Hxy | Hxy];
    destruct (N.compare_spec (N_of_ascii y) (N_of_ascii z)) as [Hyz | Hyz | Hyz];
    try congruence; intros Hab Hbc.
  - rewrite Hxy, Hyz, N.compare_refl. now apply (IH b c).
  - rewrite Hxy. now apply N.compare_lt_iff in Hyz as ->.
  - rewrite <- Hyz. now apply N.compare_lt_iff in Hxy as ->.
  - assert (H : (N_of_ascii x < N_of_ascii z)%N) by lia.
    now apply N.compare_lt_iff in H as ->.
Qed.

Lemma str_ltb_false_le a b : String.ltb a b = false -> str_le b a.
Proof.
  unfold str_le, String.ltb, String.leb. rewrite (String.compare_antisym a b).
  now destruct (String.compare b a).
Qed.

Lemma str_ltb_true_le a b : String.ltb a b = true -> str_le a b.
Proof.
  unfold str_le, String.ltb, String.leb. now destruct (String.compare a b).
Qed.

(** The order is the case-sensitive one: capitals come before small letters. *)
Example str_le_case_sensitive :
  str_le "Zebra" "apple" /\ ~ str_le "apple" "Zebra" /\ str_le "B" "a".
Proof. repeat split. discriminate. Qed.

(** ** Sorting by key *)

Section SortByKey.
Context {A : Type}.
Implicit Types (l : list (string * A)) (k : string) (x : A).

Lemma insert_by_key_perm k x l : Permutation (insert_by_key k x l) ((k, x) :: l).
Proof.
  induction l as [| [k' y] l IH]; simpl; [reflexivity |].
  destruct (String.ltb k' k); [| reflexivity].
  rewrite IH. apply perm_swap.
Qed.

Lemma sort_by_key_perm l : Permutation (sort_by_key l) l.
Proof.
  induction l as [| [k x] l IH]; simpl; [reflexivity |].
  rewrite insert_by_key_perm. now constructor.
Qed.

Lemma insert_by_key_hd k x l p :
  key_le p (k, x) -> HdRel key_le p l -> HdRel key_le p (insert_by_key k x l).
Proof.
  intros Hp Hl. destruct l as [| [k' y] l]; simpl; [now constructor |].
  destruct (String.ltb k' k); constructor; [now inversion Hl | exact Hp].
Qed.

Lemma insert_by_key_sorted k x l :
  Sorted key_le l -> Sorted key_le (insert_by_key k x l).
Proof.
  induction 1 as [| [k' y] l Hs IH Hhd]; simpl; [repeat constructor |].
  destruct (String.ltb k' k) eqn:Hlt.
  - constructor; [exact IH |].
    apply insert_by_key_hd; [| exact Hhd]. now apply str_ltb_true_le.
  - constructor; [now constructor |].
    constructor. now apply str_ltb_false_le.
Qed.

Lemma sort_by_key_sorted l : Sorted key_le (sort_by_key l).
Proof.
  induction l as [| [k x] l IH]; simpl; [constructor |].
  now apply insert_by_key_sorted.
Qed.

Lemma sort_by_key_keys_sorted l :
  StronglySorted str_le (map fst (sort_by_key l)).
Proof.
  assert (H : StronglySorted key_le (sort_by_key l)).
  { apply Sorted_StronglySorted; [| apply sort_by_key_sorted].
    intros p q r. apply str_le_trans. }
  induction H as [| p l' Hs IH Hall]; simpl; constructor; [exact IH |].
  apply Forall_map. exact Hall.
Qed.
End SortByKey.

(** ** The completion order *)

Lemma remove_nth_perm {A} (i : nat) (l : list A) (d : A) :
  (i < List.length l)%nat -> Permutation (nth i l d :: remove_nth i l) l.
Proof.
  revert i. induction l as [| x l IH]; intros i Hi; simpl in Hi; [lia |].
  destruct i as [| i]; simpl; [reflexivity |].
  rewrite perm_swap. constructor. apply IH. lia.
Qed.

Lemma remove_nth_length {A} (i : nat) (l : list A) :
  (i < List.length l)%nat -> S (List.length (remove_nth i l)) = List.length l.
Proof.
  revert i. induction l as [| x l IH]; intros i Hi; simpl in Hi; [lia |].
  destruct i as [| i]; simpl; [reflexivity |].
  rewrite IH by lia. reflexivity.
Qed.

Lemma as_completed_from_perm {A} (fuel : nat) :
  forall (choices : list nat) (pending : list A),
    List.length pending = fuel ->
    Permutation (as_completed_from fuel choices pending) pending.
Proof.
  induction fuel as [| fuel IH]; intros choices pending Hlen.
  - destruct pending; [reflexivity | discriminate].
  - destruct pending as [| x rest]; [discriminate |].
    cbn [as_completed_from].
    set (i := (hd O choices mod List.length (x :: rest))%nat).
    assert (Hi : (i < List.length (x :: rest))%nat).
    { apply Nat.mod_upper_bound. discriminate. }
    rewrite IH.
    + now apply remove_nth_perm.
    + pose proof (remove_nth_length i (x :: rest) Hi). lia.
Qed.

(** Every order [as_completed] yields is an order of the submitted futures. *)
Lemma as_completed_perm {A} (choices : list nat) (fs : list A) :
  Permutation (as_completed choices fs) fs.
Proof. now apply as_completed_from_perm. Qed.

Lemma as_completed_from_any {A} (target : list A) :
  forall pending : list A,
    Permutation pending target ->
    exists choices,
      as_completed_from (List.length pending) choices pending = target.
Proof.
  induction target as [| y target IH]; intros pending Hperm.
  - apply Permutation_sym, Permutation_nil in Hperm. subst. now exists [].
  - assert (Hin : In y pending).
    { apply (Permutation_in y (Permutation_sym Hperm)). now left. }
    destruct (In_nth pending y y Hin) as (i & Hi & Hnth).
    pose proof (remove_nth_perm i pending y Hi) as Hrem.
    rewrite Hnth in Hrem.
    assert (Hrest : Permutation (remove_nth i pending) target).
    { apply (Permutation_cons_inv (a := y)). now rewrite Hrem. }
    destruct (IH _ Hrest) as (choices & Hch).
    exists (i :: choices).
    destruct pending as [| x rest]; [simpl in Hi; lia |].
    cbn [List.length as_completed_from hd tl].
    change (S (List.length rest)) with (List.length (x :: rest)).
    rewrite (Nat.mod_small _ _ Hi).
    pose proof (remove_nth_length i (x :: rest) Hi) as Hlen.
    cbn [List.length] in Hlen. injection Hlen as Hlen.
    rewrite <- Hlen, Hch. f_equal.
    rewrite <- Hnth. apply nth_indep. exact Hi.
Qed.

(** Conversely every order of the submitted futures is one [as_completed]
    yields, for some choices of the oracle. *)
Lemma as_completed_any {A} (fs target : list A) :
  Permutation fs target -> exists choices, as_completed choices fs = target.
Proof. apply as_completed_from_any. Qed.

(** ** poll_urls *)

Lemma future_result_handled w self name url :
  exists t r,
    try_except (future_result w self name url)
      [ (Exception_, fun e =>
           ret (future_error_result name url e (w_future_now w name url))) ]
    = (t, inr r) /\
    expected_result w self name url r.
Proof.
  unfold future_result, expected_result.
  destruct (w_future_exc w name url) as [e |].
  - exists [], (future_error_result name url e (w_future_now w name url)).
    split; reflexivity.
  - destruct (check_url_shape self name url (w_check w name url))
      as (status & sc & rt & err & Heq & _).
    rewrite Heq. do 2 eexists. split; reflexivity.
Qed.

Lemma collect_results w self done :
  forall acc,
  exists t rs,
    collect w self done acc = (t, inr (acc ++ rs)) /\
    Forall2 (fun ep r => expected_result w self (fst ep) (snd ep) r) done rs.
Proof.
  induction done as [| [name url] done IH]; intros acc.
  - exists [], []. rewrite app_nil_r. split; [reflexivity | constructor].
  - destruct (future_result_handled w self name url) as (t & r & Heq & Hr).
    destruct (IH (acc ++ [r])) as (t' & rs & Heq' & Hrs).
    exists (t ++ t'), (r :: rs). split.
    + cbn [collect]. rewrite (bind_inr _ _ _ _ Heq), Heq'.
      unfold trace, outcome. cbn [fst snd]. now rewrite <- app_assoc.
    + now constructor.
Qed.

Lemma expected_result_fields w self name url r :
  expected_result w self name url r ->
  dict_keys r = result_keys /\
  dict_get r "name" = Some (VStr name) /\
  dict_get r "url" = Some (VStr url) /\
  exists status, dict_get r "status" = Some (VStr status) /\ In status statuses.
Proof.
  unfold expected_result. destruct (w_future_exc w name url) as [e |].
  - intros ->. repeat split. exists "error". split; [reflexivity |].
    cbn. tauto.
  - destruct (check_url_shape self name url (w_check w name url))
      as (status & sc & rt & err & Heq & Hin & _).
    rewrite Heq. cbn. intros [= <-]. repeat split.
    now exists status.
Qed.

Lemma mapM_name_key (keyed : list (string * PyDict)) :
  Forall (fun p => dict_get (snd p) "name" = Some (VStr (fst p))) keyed ->
  mapM (fun x => k <- name_key x ;; ret (k, x)) (map snd keyed)
  = ([], inr keyed).
Proof.
  induction 1 as [| [k x] keyed Hk _ IH]; [reflexivity |].
  cbn [map mapM snd fst] in *. rewrite IH.
  unfold name_key, getitem. rewrite Hk. reflexivity.
Qed.

Lemma map_snd_combine_eq {A B} (l1 : list A) :
  forall l2 : list B,
    List.length l1 = List.length l2 -> map snd (combine l1 l2) = l2.
Proof.
  induction l1 as [| a l1 IH]; intros [| b l2] Hlen; try discriminate;
    [reflexivity |].
  simpl. f_equal. apply IH. now injection Hlen.
Qed.

(** [poll_urls] returns: the results are those of the submitted futures,
    each once, in the order of their names. *)
Lemma poll_urls_returns w self urls :
  0 < max_workers self ->
  exists t keyed endpoints,
    poll_urls w self urls = (t, inr (map snd keyed)) /\
    StronglySorted str_le (map fst keyed) /\
    Forall (fun p => dict_get (snd p) "name" = Some (VStr (fst p))) keyed /\
    Permutation endpoints (dict_items urls) /\
    Forall2 (fun ep r => expected_result w self (fst ep) (snd ep) r)
      endpoints (map snd keyed).
Proof.
  intros Hmw. unfold poll_urls.
  destruct (max_workers self <=? 0) eqn:Hle; [lia |].
  set (done := as_completed (w_completion w) (dict_items urls)).
  destruct (collect_results w self done []) as (t & rs & Heq & Hrs).
  cbn [app] in Heq.
  rewrite (bind_inr _ _ _ _ Heq).
  (* the keys of the collected results *)
  set (keyed := combine (map fst done) rs).
  assert (Hlen : List.length (map fst done) = List.length rs).
  { rewrite length_map. now apply Forall2_length in Hrs. }
  assert (Hsnd : map snd keyed = rs) by now apply map_snd_combine_eq.
  assert (Hkeys : Forall (fun p => dict_get (snd p) "name" = Some (VStr (fst p)))
                    keyed).
  { unfold keyed. clear Hsnd Hlen Heq keyed. clearbody done.
    induction Hrs as [| [n u] r done rs Hr _ IH]; simpl; constructor;
      [| exact IH].
    now destruct (expected_result_fields _ _ _ _ _ Hr) as (_ & Hn & _). }
  unfold sorted_by_name. rewrite <- Hsnd, (mapM_name_key _ Hkeys).
  cbn [bind ret trace outcome fst snd].
  pose proof (sort_by_key_perm keyed) as Hperm.
  assert (Hperm' : Permutation rs (map snd (sort_by_key keyed))).
  { rewrite <- Hsnd. apply Permutation_map. now symmetry. }
  destruct (Permutation_Forall2 Hperm' (Forall2_flip Hrs))
    as (endpoints & Hpe & Hfe).
  exists (t ++ [] ++ []), (sort_by_key keyed), endpoints.
  split; [reflexivity |]. split; [apply sort_by_key_keys_sorted |].
  split; [| split].
  - eapply Permutation_Forall; [symmetry; exact Hperm | exact Hkeys].
  - rewrite <- Hpe. apply as_completed_perm.
  - exact (Forall2_flip Hfe).
Qed.

Lemma NoDup_map_injective {A B} (f : A -> B) (l : list A) :
  (forall a b, f a = f b -> a = b) -> NoDup l -> NoDup (map f l).
Proof.
  intros Hinj. induction 1 as [| a l Hnotin _ IH]; simpl; constructor;
    [| exact IH].
  intros Hin. apply in_map_iff in Hin as (b & Hb & Hin).
  apply Hinj in Hb. now subst.
Qed.

(** C1.  [poll_urls] returns exactly one result per entry of the mapping:
    the results pair off with the entries, each carries the name and url of
    its entry, no name occurs twice, and where [future.result()] raises the
    result is the substituted one, with status ['error'] and a message
    naming the failure. *)
Theorem poll_urls_one_result_per_endpoint w self urls :
  0 < max_workers self ->
  NoDup (dict_keys urls) ->
  exists results endpoints,
    outcome (poll_urls w self urls) = inr results /\
    List.length results = List.length urls /\
    Permutation endpoints (dict_items urls) /\
    Forall2
      (fun ep r =>
         dict_get r "name" = Some (VStr (fst ep)) /\
         dict_get r "url" = Some (VStr (snd ep)) /\
         match w_future_exc w (fst ep) (snd ep) with
         | None =>
             outcome (check_url self (fst ep) (snd ep)
                        (w_check w (fst ep) (snd ep))) = inr r
         | Some e =>
             dict_get r "status" = Some (VStr "error") /\
             dict_get r "error"
               = Some (VStr ("Future execution error: " +++ exc_str e))
         end)
      endpoints results /\
    NoDup (map (fun r => dict_get r "name") results).
Proof.
  intros Hmw Hnodup.
  destruct (poll_urls_returns w self urls Hmw)
    as (t & keyed & endpoints & Heq & _ & _ & Hperm & Hall).
  exists (map snd keyed), endpoints. rewrite Heq.
  assert (Hfields :
    Forall2 (fun ep r => dict_get r "name" = Some (VStr (fst ep)))
      endpoints (map snd keyed)).
  { eapply Forall2_impl; [| exact Hall]. intros ep r Hr.
    now destruct (expected_result_fields _ _ _ _ _ Hr) as (_ & Hn & _). }
  split; [reflexivity |]. split; [| split; [exact Hperm | split]].
  - rewrite <- (Forall2_length Hall).
    apply Permutation_length. exact Hperm.
  - eapply Forall2_impl; [| exact Hall]. intros [name url] r Hr.
    destruct (expected_result_fields _ _ _ _ _ Hr) as (_ & Hn & Hu & _).
    split; [exact Hn |]. split; [exact Hu |].
    unfold expected_result in Hr. cbn [fst snd] in *.
    destruct (w_future_exc w name url); [subst r; split; reflexivity | exact Hr].
  - assert (Hnames : map (fun r => dict_get r "name") (map snd keyed)
                     = map (fun ep => Some (VStr (fst ep))) endpoints).
    { clear - Hfields. induction Hfields; simpl; [reflexivity |].
      now f_equal. }
    rewrite Hnames, <- (map_map fst (fun n => Some (VStr n))).
    apply NoDup_map_injective; [now intros a b [= ->] |].
    eapply Permutation_NoDup; [| exact Hnodup].
    apply Permutation_map. now symmetry.
Qed.

Lemma poll_urls_one_result_per_endpoint_witness :
  0 < max_workers sample_poller /\
  NoDup (dict_keys sample_urls) /\
  exists results endpoints,
    outcome (poll_urls sample_world sample_poller sample_urls) = inr results /\
    List.length results = List.length sample_urls /\
    Permutation endpoints (dict_items sample_urls) /\
    Forall2
      (fun ep r =>
         dict_get r "name" = Some (VStr (fst ep)) /\
         dict_get r "url" = Some (VStr (snd ep)) /\
         match w_future_exc sample_world (fst ep) (snd ep) with
         | None =>
             outcome (check_url sample_poller (fst ep) (snd ep)
                        (w_check sample_world (fst ep) (snd ep))) = inr r
         | Some e =>
             dict_get r "status" = Some (VStr "error") /\
             dict_get r "error"
               = Some (VStr ("Future execution error: " +++ exc_str e))
         end)
      endpoints results /\
    NoDup (map (fun r => dict_get r "name") results).
Proof.
  assert (Hmw : 0 < max_workers sample_poller) by reflexivity.
  assert (Hnd : NoDup (dict_keys sample_urls)).
  { repeat constructor; simpl; intuition discriminate. }
  split; [exact Hmw |]. split; [exact Hnd |].
  exact (poll_urls_one_result_per_endpoint sample_world sample_poller
           sample_urls Hmw Hnd).
Defined.

(** C3.  Whatever the order in which the checks complete, the list
    [poll_urls] returns is in ascending order of the names, compared as
    [str] (case-sensitive). *)
Theorem poll_urls_sorted_by_name w choices self urls :
  0 < max_workers self ->
  exists results names,
    outcome (poll_urls (with_completion w choices) self urls) = inr results /\
    map (fun r => dict_get r "name") results
      = map (fun n => Some (VStr n)) names /\
    StronglySorted str_le names.
Proof.
  intros Hmw.
  destruct (poll_urls_returns (with_completion w choices) self urls Hmw)
    as (t & keyed & endpoints & Heq & Hsorted & Hkeys & _).
  exists (map snd keyed), (map fst keyed). rewrite Heq.
  split; [reflexivity |]. split; [| exact Hsorted].
  clear - Hkeys. induction Hkeys as [| p keyed Hp _ IH]; simpl;
    [reflexivity |]. now f_equal.
Qed.

Lemma poll_urls_sorted_by_name_witness :
  0 < max_workers sample_poller /\
  exists results names,
    outcome (poll_urls (with_completion sample_world [3; 1; 0; 0]%nat)
               sample_poller sample_urls) = inr results /\
    map (fun r => dict_get r "name") results
      = map (fun n => Some (VStr n)) names /\
    StronglySorted str_le names.
Proof.
  assert (Hmw : 0 < max_workers sample_poller) by reflexivity.
  split; [exact Hmw |].
  exact (poll_urls_sorted_by_name sample_world [3; 1; 0; 0]%nat sample_poller
           sample_urls Hmw).
Defined.

(** The sample run, evaluated: the four names in order, capitals first. *)
Example poll_urls_sample_names :
  exists results,
    outcome (poll_urls sample_world sample_poller sample_urls) = inr results /\
    map (fun r => dict_get r "name") results
      = [Some (VStr "Amazon"); Some (VStr "B"); Some (VStr "Github");
         Some (VStr "b")].
Proof. eexists. split; reflexivity. Qed.

(** ** The returned list does not depend on the completion order *)

Lemma str_le_antisym a b : str_le a b -> str_le b a -> a = b.
Proof. apply String.leb_antisym. Qed.

Lemma sorted_perm_eq (l1 : list string) :
  forall l2,
    StronglySorted str_le l1 -> StronglySorted str_le l2 ->
    Permutation l1 l2 -> l1 = l2.
Proof.
  induction l1 as [| a l1 IH]; intros l2 H1 H2 Hp.
  - apply Permutation_nil in Hp. now subst.
  - destruct l2 as [| b l2];
      [apply Permutation_sym, Permutation_nil in Hp; discriminate |].
    apply StronglySorted_inv in H1 as [H1 Ha].
    apply StronglySorted_inv in H2 as [H2 Hb].
    rewrite Forall_forall in Ha, Hb.
    assert (Hab : a = b).
    { pose proof (Permutation_in a Hp (or_introl eq_refl)) as [Hba | Hina];
        [now symmetry |].
      pose proof (Permutation_in b (Permutation_sym Hp) (or_introl eq_refl))
        as [Heq | Hinb]; [exact Heq |].
      apply str_le_antisym; auto. }
    subst b. f_equal. apply IH; try assumption.
    now apply Permutation_cons_inv in Hp.
Qed.

Lemma dict_value_unique {V} (d : Dict V) k v1 v2 :
  NoDup (dict_keys d) -> In (k, v1) d -> In (k, v2) d -> v1 = v2.
Proof.
  induction d as [| [k' v'] d IH]; intros Hnd H1 H2; [contradiction |].
  cbn in Hnd. apply NoDup_cons_iff in Hnd as [Hnotin Hnd].
  destruct H1 as [H1 | H1], H2 as [H2 | H2].
  - congruence.
  - exfalso. apply Hnotin. injection H1 as -> _.
    now apply (in_map fst) in H2.
  - exfalso. apply Hnotin. injection H2 as -> _.
    now apply (in_map fst) in H1.
  - now apply IH.
Qed.

Lemma same_keys_same_items {V} (d : Dict V) (l1 : Dict V) :
  forall l2 : Dict V,
    NoDup (dict_keys d) ->
    (forall x, In x l1 -> In x d) -> (forall x, In x l2 -> In x d) ->
    map fst l1 = map fst l2 -> l1 = l2.
Proof.
  induction l1 as [| [k1 v1] l1 IH]; intros [| [k2 v2] l2] Hnd H1 H2 Hk;
    try discriminate; [reflexivity |].
  cbn in Hk. injection Hk as -> Hk.
  assert (v1 = v2).
  { apply (dict_value_unique d k2); [exact Hnd | |];
      [apply H1 | apply H2]; now left. }
  subst v2. f_equal.
  apply IH; try assumption; intros x Hx; [apply H1 | apply H2]; now right.
Qed.

Lemma expected_results_unique w self eps :
  forall rs1 rs2,
    Forall2 (fun ep r => expected_result w self (fst ep) (snd ep) r) eps rs1 ->
    Forall2 (fun ep r => expected_result w self (fst ep) (snd ep) r) eps rs2 ->
    rs1 = rs2.
Proof.
  induction eps as [| ep eps IH]; intros rs1 rs2 H1 H2;
    inversion H1 as [| ? r1 ? rs1' Hr1 Hrs1]; subst;
    inversion H2 as [| ? r2 ? rs2' Hr2 Hrs2]; subst; [reflexivity |].
  f_equal; [| now apply IH].
  unfold expected_result in Hr1, Hr2.
  destruct (w_future_exc w (fst ep) (snd ep)); congruence.
Qed.

Lemma keyed_names keyed :
  forall w self eps,
    Forall (fun p => dict_get (snd p) "name" = Some (VStr (fst p))) keyed ->
    Forall2 (fun ep r => expected_result w self (fst ep) (snd ep) r)
      eps (map snd keyed) ->
    map fst keyed = map fst eps.
Proof.
  induction keyed as [| p keyed IH]; intros w self eps Hk Hall;
    inversion Hall as [| ep r eps' rs Hr Hrs]; subst; [reflexivity |].
  apply Forall_cons_iff in Hk as [Hp Hk]. cbn [map]. f_equal.
  - destruct (expected_result_fields _ _ _ _ _ Hr) as (_ & Hn & _).
    congruence.
  - now apply (IH w self).
Qed.

(** X17.  With distinct names, two runs that differ only in the order in
    which the checks complete return the same list. *)
Lemma poll_urls_order_independent w choices1 choices2 self urls :
  0 < max_workers self ->
  NoDup (dict_keys urls) ->
  outcome (poll_urls (with_completion w choices1) self urls)
  = outcome (poll_urls (with_completion w choices2) self urls).
Proof.
  intros Hmw Hnd.
  destruct (poll_urls_returns (with_completion w choices1) self urls Hmw)
    as (t1 & keyed1 & eps1 & Heq1 & Hs1 & Hk1 & Hp1 & Hall1).
  destruct (poll_urls_returns (with_completion w choices2) self urls Hmw)
    as (t2 & keyed2 & eps2 & Heq2 & Hs2 & Hk2 & Hp2 & Hall2).
  rewrite Heq1, Heq2. cbn [outcome snd]. f_equal.
  assert (Hs1' : StronglySorted str_le (map fst eps1)).
  { rewrite <- (keyed_names _ _ _ _ Hk1 Hall1). exact Hs1. }
  assert (Hs2' : StronglySorted str_le (map fst eps2)).
  { rewrite <- (keyed_names _ _ _ _ Hk2 Hall2). exact Hs2. }
  assert (Heps : eps1 = eps2).
  { apply (same_keys_same_items urls); try assumption.
    - intros x Hx. exact (Permutation_in x Hp1 Hx).
    - intros x Hx. exact (Permutation_in x Hp2 Hx).
    - apply sorted_perm_eq; try assumption.
      apply Permutation_map. now rewrite Hp1, Hp2. }
  subst eps2.
  exact (expected_results_unique w self eps1 _ _ Hall1 Hall2).
Qed.

(** ** Traces *)

Lemma trace_bind {A B} (m : M A) (f : A -> M B) :
  trace (bind m f)
  = trace m ++ match outcome m with
               | inr a => trace (f a)
               | inl _ => []
               end.
Proof.
  destruct m as [t [x | a]]; cbn; [now rewrite app_nil_r |].
  now destruct (f a).
Qed.

Lemma outcome_bind {A B} (m : M A) (f : A -> M B) :
  outcome (bind m f)
  = match outcome m with
    | inr a => outcome (f a)
    | inl x => inl x
    end.
Proof.
  destruct m as [t [x | a]]; cbn; [reflexivity |]. now destruct (f a).
Qed.

Lemma Forall_trace_bind {A B} (P : Event -> Prop) (m : M A) (f : A -> M B) :
  Forall P (trace m) ->
  (forall a, outcome m = inr a -> Forall P (trace (f a))) ->
  Forall P (trace (bind m f)).
Proof.
  intros Hm Hf. rewrite trace_bind. apply Forall_app. split; [exact Hm |].
  destruct (outcome m) as [x | a]; [constructor | now apply Hf].
Qed.

Lemma Forall_trace_getitem {V} (P : Event -> Prop) (d : Dict V) k :
  Forall P (trace (getitem d k)).
Proof. unfold getitem. destruct (dict_get d k); constructor. Qed.

Lemma Forall_trace_print (P : Event -> Prop) (l : Line) :
  P (Stdout l) -> Forall P (trace (print l)).
Proof. intros H. repeat constructor. exact H. Qed.

Lemma getitem_inr {V} (d : Dict V) k v :
  outcome (getitem d k) = inr v -> dict_get d k = Some v.
Proof.
  unfold getitem. destruct (dict_get d k); cbn; congruence.
Qed.

Lemma Forall_trace_mapM {A B} (P : Event -> Prop) (f : A -> M B) l :
  (forall x, In x l -> Forall P (trace (f x))) ->
  Forall P (trace (mapM f l)).
Proof.
  induction l as [| x l IH]; intros Hf; [constructor |].
  cbn [mapM]. apply Forall_trace_bind; [apply Hf; now left |].
  intros y _. apply Forall_trace_bind; [apply IH; intros; apply Hf; now right |].
  intros ys _. constructor.
Qed.

Lemma Forall_trace_for_each {A} (P : A -> Event -> Prop) (body : A -> M unit) l :
  (forall x, In x l -> Forall (P x) (trace (body x))) ->
  Forall (fun e => exists x, In x l /\ P x e) (trace (for_each l body)).
Proof.
  induction l as [| x l IH]; intros Hb; [constructor |].
  cbn [for_each]. apply Forall_trace_bind.
  - eapply Forall_impl; [| apply Hb; now left].
    intros e He. exists x. split; [now left | exact He].
  - intros _ _. eapply Forall_impl; [| apply IH; intros; apply Hb; now right].
    intros e (y & Hy & He). exists y. split; [now right | exact He].
Qed.

(** ** print_results *)

Lemma print_result_lines_ok show_details result :
  Forall (detail_line_ok result) (trace (print_result show_details result)).
Proof.
  unfold print_result.
  apply Forall_trace_bind; [apply Forall_trace_getitem |]. intros status _.
  apply Forall_trace_bind; [apply Forall_trace_getitem |]. intros name _.
  apply Forall_trace_bind; [destruct name; constructor |]. intros name' _.
  apply Forall_trace_bind; [apply Forall_trace_getitem |]. intros url _.
  apply Forall_trace_bind; [destruct url; constructor |]. intros url' _.
  apply Forall_trace_bind; [now apply Forall_trace_print |]. intros _ _.
  destruct show_details; [| constructor]. cbn [when].
  apply Forall_trace_bind; [apply Forall_trace_getitem |]. intros sc Hsc.
  apply getitem_inr in Hsc.
  apply Forall_trace_bind.
  { destruct (truthy sc) eqn:Ht; [| constructor].
    now apply Forall_trace_print. }
  intros _ _.
  apply Forall_trace_bind; [apply Forall_trace_getitem |]. intros rt Hrt.
  apply getitem_inr in Hrt.
  apply Forall_trace_bind.
  { destruct (truthy rt) eqn:Ht; [| constructor].
    now apply Forall_trace_print. }
  intros _ _.
  apply Forall_trace_bind; [apply Forall_trace_getitem |]. intros err Herr.
  apply getitem_inr in Herr.
  apply Forall_trace_bind.
  { destruct (truthy err) eqn:Ht; [| constructor].
    now apply Forall_trace_print. }
  intros _ _. now apply Forall_trace_print.
Qed.

Lemma print_results_lines_ok w results show_details :
  Forall (fun e => (exists s, e = Stdout (Text s)) \/
                   exists result, In result results /\ detail_line_ok result e)
    (trace (print_results w results show_details)).
Proof.
  unfold print_results.
  repeat (apply Forall_trace_bind;
          [apply Forall_trace_print; left; eexists; reflexivity | intros _ _]).
  apply Forall_trace_bind.
  { apply Forall_trace_mapM. intros. apply Forall_trace_getitem. }
  intros statuses _.
  repeat (apply Forall_trace_bind;
          [apply Forall_trace_print; left; eexists; reflexivity | intros _ _]).
  eapply Forall_impl; [| apply Forall_trace_for_each].
  - intros e He. right. exact He.
  - intros. apply print_result_lines_ok.
Qed.

(** For a result that has its keys, and a name and url other than [None],
    the lines are exactly [detail_lines]. *)
Lemma print_result_lines result status name url sc rt err :
  dict_get result "status" = Some status ->
  dict_get result "name" = Some name -> name <> VNone ->
  dict_get result "url" = Some url -> url <> VNone ->
  dict_get result "status_code" = Some sc ->
  dict_get result "response_time" = Some rt ->
  dict_get result "error" = Some err ->
  print_result true result = (detail_lines status name url sc rt err, inr tt).
Proof.
  intros Hst Hn Hn0 Hu Hu0 Hsc Hrt Herr.
  unfold print_result, getitem, detail_lines.
  rewrite Hst, Hn, Hu, Hsc, Hrt, Herr.
  destruct name; [contradiction | | |]; destruct url; try contradiction;
    cbv [bind ret format_left when print emit];
    destruct (truthy sc), (truthy rt), (truthy err); reflexivity.
Qed.

(** ** Timestamps *)

Lemma is_digit_digit n : is_digit (digit n) = true.
Proof.
  unfold is_digit, digit.
  assert (H : (n mod 10 < 10)%nat) by (apply Nat.mod_upper_bound; discriminate).
  rewrite nat_ascii_embedding by lia.
  apply andb_true_iff. split; apply Nat.leb_le; lia.
Qed.

Lemma isoformat_iso8601 d : iso8601 (isoformat d) = true.
Proof.
  unfold iso8601, isoformat.
  destruct (Nat.eqb (microsecond d) 0);
    cbv [pad6 pad4 pad2 String.append iso8601_seconds iso8601_microseconds
         app matches];
    rewrite ?is_digit_digit; reflexivity.
Qed.

(** ** The shape of the results *)

Lemma expected_result_json w self name url r :
  expected_result w self name url r ->
  json_result_ok (map (fun kv => (fst kv, json_of_val (snd kv))) r).
Proof.
  unfold expected_result. destruct (w_future_exc w name url) as [e |].
  - intros ->. unfold json_result_ok, future_error_result. cbn.
    do 7 eexists. split; [reflexivity |].
    repeat split; eauto using isoformat_iso8601.
  - destruct (check_url_shape self name url (w_check w name url))
      as (status & sc & rt & err & Heq & _ & Hsc & Hrt & Herr).
    rewrite Heq. cbn. intros [= <-]. unfold json_result_ok. cbn.
    do 7 eexists. split; [reflexivity |].
    split; [destruct Hsc as [-> | (z & ->)]; cbn; eauto |].
    split; [destruct Hrt as [-> | (q & ->)]; cbn; eauto |].
    split; [destruct Herr as [-> | (s & ->)]; cbn; eauto |].
    apply isoformat_iso8601.
Qed.

Lemma poll_urls_json w self urls results :
  outcome (poll_urls w self urls) = inr results ->
  Forall json_result_ok (json_dump results).
Proof.
  intros Hres.
  assert (Hmw : 0 < max_workers self).
  { unfold poll_urls in Hres.
    destruct (max_workers self <=? 0) eqn:Hle; [discriminate | lia]. }
  destruct (poll_urls_returns w self urls Hmw)
    as (t & keyed & endpoints & Heq & _ & _ & _ & Hall).
  rewrite Heq in Hres. cbn in Hres. injection Hres as <-.
  unfold json_dump. apply Forall_map.
  clear - Hall. induction Hall as [| ep r eps rs Hr _ IH]; constructor;
    [| exact IH].
  eapply expected_result_json. exact Hr.
Qed.

(** C10.  With details shown, [print_results] prints a status-code,
    response-time or error line only for a field whose value is true, not
    for every field that is not [None]: no line is printed for a status
    code 0 or for a response time of 0.0. *)
Theorem print_results_details_only_when_truthy w results :
  let out := trace (print_results w results true) in
  (forall v, In (Stdout (StatusCodeLine v)) out ->
     truthy v = true /\
     exists r, In r results /\ dict_get r "status_code" = Some v) /\
  (forall v, In (Stdout (ResponseTimeLine v)) out ->
     truthy v = true /\
     exists r, In r results /\ dict_get r "response_time" = Some v) /\
  (forall v, In (Stdout (ErrorLine v)) out ->
     truthy v = true /\
     exists r, In r results /\ dict_get r "error" = Some v) /\
  ~ In (Stdout (StatusCodeLine (VInt 0))) out /\
  (forall q, (q == 0)%Q -> ~ In (Stdout (ResponseTimeLine (VFloat q))) out).
Proof.
  intros out.
  pose proof (print_results_lines_ok w results true) as Hall.
  fold out in Hall. rewrite Forall_forall in Hall.
  assert (Hsc : forall v, In (Stdout (StatusCodeLine v)) out ->
            truthy v = true /\
            exists r, In r results /\ dict_get r "status_code" = Some v).
  { intros v Hin. destruct (Hall _ Hin) as [(s & Hs) | (r & Hr & Hget & Ht)];
      [discriminate |]. split; [exact Ht | now exists r]. }
  assert (Hrt : forall v, In (Stdout (ResponseTimeLine v)) out ->
            truthy v = true /\
            exists r, In r results /\ dict_get r "response_time" = Some v).
  { intros v Hin. destruct (Hall _ Hin) as [(s & Hs) | (r & Hr & Hget & Ht)];
      [discriminate |]. split; [exact Ht | now exists r]. }
  split; [exact Hsc |]. split; [exact Hrt |]. split; [| split].
  - intros v Hin. destruct (Hall _ Hin) as [(s & Hs) | (r & Hr & Hget & Ht)];
      [discriminate |]. split; [exact Ht | now exists r].
  - intros Hin. destruct (Hsc _ Hin) as [Ht _]. discriminate Ht.
  - intros q Hq Hin. destruct (Hrt _ Hin) as [Ht _].
    unfold Qeq in Hq. cbn in Hq, Ht.
    rewrite Z.mul_1_r in Hq. rewrite Hq in Ht. discriminate Ht.
Qed.

Lemma print_results_details_only_when_truthy_witness :
  In (Stdout (StatusCodeLine (VInt 200)))
    (trace (print_results sample_world
              [sample_result_zero; sample_result_up] true)) /\
  truthy (VInt 200) = true /\
  exists r, In r [sample_result_zero; sample_result_up] /\
            dict_get r "status_code" = Some (VInt 200).
Proof.
  assert (Hin : In (Stdout (StatusCodeLine (VInt 200)))
                  (trace (print_results sample_world
                            [sample_result_zero; sample_result_up] true))).
  { vm_compute. tauto. }
  split; [exact Hin |].
  exact (proj1 (print_results_details_only_when_truthy sample_world
                  [sample_result_zero; sample_result_up])
           (VInt 200) Hin).
Defined.

(** The lines of the two sample results: the one answered with 200 gets its
    status-code and response-time lines, the one whose fields are zero gets
    neither. *)
Example print_results_sample_lines :
  trace (print_results sample_world [sample_result_zero; sample_result_up] true)
  = [ Stdout (Text (newline +++ str_mul "=" 80));
      Stdout (Text "URL POLLING RESULTS - 2024-03-09 14:05:07");
      Stdout (Text (str_mul "=" 80));
      Stdout (Text "Summary: 1/2 URLs are responding");
      Stdout (Text "");
      Stdout (ResultLine (symbol_of (VStr "unknown") "") (VStr "Zero")
                (VStr "https://example.org/0"));
      Stdout (Text "");
      Stdout (ResultLine (symbol_of (VStr "up") "") (VStr "Home")
                (VStr "https://example.org/"));
      Stdout (StatusCodeLine (VInt 200));
      Stdout (ResponseTimeLine (VFloat (50000 # 100)));
      Stdout (Text "") ].
Proof. reflexivity. Qed.

(** ** The script *)

Lemma Forall_trace_try_except {A} (P : Event -> Prop) (body : M A) hs :
  Forall P (trace body) ->
  (forall c h e, In (c, h) hs -> Forall P (trace (h e))) ->
  Forall P (trace (try_except body hs)).
Proof.
  intros Hb Hh. destruct body as [t [[e | code |] | a]]; cbn in *; try exact Hb.
  destruct (find_handler e hs) as [h |] eqn:Hfind; [| exact Hb].
  assert (Hin : exists c, In (c, h) hs).
  { clear - Hfind. induction hs as [| [c h'] hs IH]; [discriminate |].
    cbn in Hfind. destruct (isinstance e c).
    - injection Hfind as ->. exists c. now left.
    - destruct (IH Hfind) as (c' & Hc'). exists c'. now right. }
  destruct Hin as (c & Hin). specialize (Hh c h e Hin).
  destruct (h e) as [t' r]. cbn in *. apply Forall_app. now split.
Qed.

Lemma collect_trace w self done :
  forall acc, Forall is_http_get (trace (collect w self done acc)).
Proof.
  induction done as [| [name url] done IH]; intros acc; [constructor |].
  cbn [collect]. apply Forall_trace_bind; [| intros; apply IH].
  apply Forall_trace_try_except.
  - unfold future_result. destruct (w_future_exc w name url); [constructor |].
    destruct (check_url_shape self name url (w_check w name url))
      as (status & sc & rt & err & Heq & _).
    rewrite Heq. repeat constructor.
  - intros c h e [[= <- <-] | []]. constructor.
Qed.

Lemma poll_urls_trace w self urls :
  Forall is_http_get (trace (poll_urls w self urls)).
Proof.
  unfold poll_urls. destruct (max_workers self <=? 0); [constructor |].
  apply Forall_trace_bind; [apply collect_trace |]. intros results _.
  unfold sorted_by_name.
  apply Forall_trace_bind; [| intros; constructor].
  apply Forall_trace_mapM. intros x _.
  apply Forall_trace_bind; [| intros; constructor].
  unfold name_key.
  apply Forall_trace_bind; [apply Forall_trace_getitem |].
  intros [| s | z | q] _; constructor.
Qed.

Lemma print_results_trace w results show_details :
  Forall is_stdout (trace (print_results w results show_details)).
Proof.
  eapply Forall_impl; [| apply print_results_lines_ok].
  intros e [(s & ->) | (r & _ & Hok)]; [exact I |].
  destruct e as [l | |]; [exact I | contradiction | contradiction].
Qed.

Lemma build_urls_dict_trace (P : Event -> Prop) urls :
  forall urls_dict, Forall P (trace (build_urls_dict urls urls_dict)).
Proof.
  induction urls as [| item urls IH]; intros urls_dict; [constructor |].
  cbn [build_urls_dict].
  apply Forall_trace_bind; [apply Forall_trace_getitem |]. intros url _.
  apply Forall_trace_bind; [apply Forall_trace_getitem |]. intros caption _.
  apply IH.
Qed.

Lemma poll_print_save_writes w poller urls_dict :
  Forall file_write_ok (trace (poll_print_save w poller urls_dict)).
Proof.
  unfold poll_print_save.
  apply Forall_trace_bind.
  { eapply Forall_impl; [| apply poll_urls_trace]. now intros [| |]. }
  intros results Hres.
  apply Forall_trace_bind.
  { eapply Forall_impl; [| apply print_results_trace]. now intros [| |]. }
  intros _ _.
  apply Forall_trace_bind.
  { destruct (w_write w _); [constructor |].
    repeat constructor. cbn. eapply poll_urls_json. exact Hres. }
  intros _ _.
  apply Forall_trace_bind; [now apply Forall_trace_print |].
  intros _ _. constructor.
Qed.

Lemma iterate_trace (P : Event -> Prop) urls : Forall P (trace (iterate urls)).
Proof. destruct urls; constructor. Qed.

Lemma subscript_trace (P : Event -> Prop) item k :
  Forall P (trace (subscript item k)).
Proof. destruct item; try constructor. apply Forall_trace_getitem. Qed.

Lemma build_urls_dict_json_trace (P : Event -> Prop) items :
  forall urls_dict, Forall P (trace (build_urls_dict_json items urls_dict)).
Proof.
  induction items as [| item items IH]; intros urls_dict; [constructor |].
  cbn [build_urls_dict_json].
  apply Forall_trace_bind; [apply subscript_trace |]. intros url _.
  apply Forall_trace_bind; [apply subscript_trace |]. intros caption _.
  destruct (hashable caption); [apply IH | constructor].
Qed.

Lemma load_urls_from_file_trace w filename :
  Forall is_stdout (trace (load_urls_from_file w filename)).
Proof.
  unfold load_urls_from_file. apply Forall_trace_try_except.
  - destruct (w_load w filename); constructor.
  - intros c h e [[= <- <-] | [[= <- <-] | []]]; repeat constructor.
Qed.

Lemma script_writes w argv : Forall file_write_ok (trace (script w argv)).
Proof.
  unfold script. destruct (1 <? List.length argv)%nat.
  - apply Forall_trace_bind.
    { eapply Forall_impl; [| apply load_urls_from_file_trace]. now intros [| |]. }
    intros urls _.
    apply Forall_trace_bind; [apply iterate_trace |]. intros items _.
    apply Forall_trace_bind; [apply build_urls_dict_json_trace |].
    intros [urls_dict |] _; [| constructor].
    apply Forall_trace_bind; [now apply Forall_trace_print |]. intros _ _.
    apply Forall_trace_bind; [apply poll_print_save_writes |].
    intros; constructor.
  - apply Forall_trace_bind; [| intros; constructor].
    unfold main.
    do 2 (apply Forall_trace_bind; [now apply Forall_trace_print | intros _ _]).
    apply Forall_trace_bind; [apply build_urls_dict_trace |]. intros urls_dict _.
    apply Forall_trace_bind; [now apply Forall_trace_print |]. intros _ _.
    apply Forall_trace_bind; [apply poll_print_save_writes |].
    intros results _. unfold failed_count.
    apply Forall_trace_bind; [| intros; constructor].
    apply Forall_trace_mapM. intros. apply Forall_trace_getitem.
Qed.

Lemma in_file_writes t path content :
  In (path, content) (file_writes t) -> In (FileWrite path content) t.
Proof.
  unfold file_writes. rewrite in_flat_map. intros (e & He & Hin).
  destruct e as [| | p c]; try contradiction.
  destruct Hin as [[= -> ->] | []]. exact He.
Qed.

(** C6, as the code has it.  Every object of the JSON file the script
    writes has exactly the members name, url, status, status_code,
    response_time, error and timestamp; status_code, response_time and error
    are [null] or an integer, a number, a string; timestamp is an ISO 8601
    string. *)
Theorem script_output_file_fields w argv path content :
  In (FileWrite path content) (trace (script w argv)) ->
  forall obj, In obj content ->
    map fst obj = result_keys /\ json_result_ok obj.
Proof.
  intros Hin obj Hobj.
  pose proof (script_writes w argv) as Hall. rewrite Forall_forall in Hall.
  specialize (Hall _ Hin). cbn in Hall. rewrite Forall_forall in Hall.
  specialize (Hall _ Hobj). split; [| exact Hall].
  destruct Hall as (name & url & status & sc & rt & err & ts & -> & _).
  reflexivity.
Qed.

Lemma script_output_file_fields_witness :
  exists path content,
    In (FileWrite path content) (trace (script sample_world ["url_poller.py"])) /\
    List.length content = 3%nat /\
    forall obj, In obj content ->
      map fst obj = result_keys /\ json_result_ok obj.
Proof.
  exists (fst (hd ("", []) (file_writes (trace (script sample_world ["url_poller.py"]))))),
         (snd (hd ("", []) (file_writes (trace (script sample_world ["url_poller.py"]))))).
  assert (Hin : In (FileWrite
                      (fst (hd ("", []) (file_writes (trace (script sample_world ["url_poller.py"])))))
                      (snd (hd ("", []) (file_writes (trace (script sample_world ["url_poller.py"]))))))
                   (trace (script sample_world ["url_poller.py"]))).
  { apply in_file_writes. vm_compute. left. reflexivity. }
  split; [exact Hin |]. split; [reflexivity |].
  exact (script_output_file_fields sample_world ["url_poller.py"] _ _ Hin).
Defined.

(** C6 as stated fails: run without an argument, the script writes one
    file of three objects, each with a member [response_time] and none
    called [response_time_ms]. *)
Lemma script_output_file_lacks_response_time_ms :
  map (fun file => (fst file, map (map fst) (snd file)))
    (file_writes (trace (script sample_world ["url_poller.py"])))
  = [ ("url_poll_results_20240309_140507.json",
       [result_keys; result_keys; result_keys]) ] /\
  result_keys <> specified_keys /\
  In "response_time" result_keys /\
  ~ In "response_time_ms" result_keys.
Proof.
  split; [vm_compute; reflexivity |].
  split; [discriminate |].
  split; [cbn; tauto |].
  cbn. intuition discriminate.
Qed.

(** C7.  When the input file is missing or is not valid JSON, the script
    prints one line that names the file and exits with status 1; no request
    is sent. *)
Theorem script_load_failure_is_fatal w argv e :
  (1 < List.length argv)%nat ->
  w_load w (nth 1 argv "") = inl e ->
  isinstance e FileNotFoundError = true \/ isinstance e JSONDecodeError = true ->
  exists message,
    script w argv = ([Stdout (Text message)], inl (SystemExit 1)) /\
    (exists before after, message = before +++ nth 1 argv "" +++ after) /\
    exit_status (script w argv) = 1 /\
    exit_status (script w argv) <> 0 /\
    forall url tmo, ~ In (HttpGet url tmo) (trace (script w argv)).
Proof.
  intros Hargv Hload Hcls.
  apply Nat.ltb_lt in Hargv.
  assert (Hscript : exists message,
             script w argv = ([Stdout (Text message)], inl (SystemExit 1)) /\
             exists before after, message = before +++ nth 1 argv "" +++ after).
  { unfold script, load_urls_from_file. rewrite Hargv, Hload.
    cbn [try_except raise find_handler].
    destruct (isinstance e FileNotFoundError) eqn:Hfnf.
    - eexists. split; [reflexivity |].
      now exists "Error: File '", "' not found".
    - destruct Hcls as [Hcls | Hcls]; [discriminate |]. rewrite Hcls.
      eexists. split; [reflexivity |].
      exists "Error: Invalid JSON in file '", "'". reflexivity. }
  destruct Hscript as (message & Heq & Hnames).
  exists message. rewrite Heq. repeat split; try assumption.
  - discriminate.
  - intros url tmo [Hin | []]. discriminate Hin.
Qed.

Lemma script_load_failure_is_fatal_witness :
  (1 < List.length ["url_poller.py"; "missing.json"])%nat /\
  w_load sample_world (nth 1 ["url_poller.py"; "missing.json"] "")
    = inl (mkExc [FileNotFoundError] "No such file or directory") /\
  (isinstance (mkExc [FileNotFoundError] "No such file or directory")
     FileNotFoundError = true \/
   isinstance (mkExc [FileNotFoundError] "No such file or directory")
     JSONDecodeError = true) /\
  exists message,
    script sample_world ["url_poller.py"; "missing.json"]
      = ([Stdout (Text message)], inl (SystemExit 1)) /\
    (exists before after,
        message = before +++ nth 1 ["url_poller.py"; "missing.json"] "" +++ after) /\
    exit_status (script sample_world ["url_poller.py"; "missing.json"]) = 1 /\
    exit_status (script sample_world ["url_poller.py"; "missing.json"]) <> 0 /\
    forall url tmo,
      ~ In (HttpGet url tmo)
          (trace (script sample_world ["url_poller.py"; "missing.json"])).
Proof.
  assert (H1 : (1 < List.length ["url_poller.py"; "missing.json"])%nat)
    by (simpl; lia).
  assert (H2 : w_load sample_world (nth 1 ["url_poller.py"; "missing.json"] "")
               = inl (mkExc [FileNotFoundError] "No such file or directory"))
    by reflexivity.
  assert (H3 : isinstance (mkExc [FileNotFoundError] "No such file or directory")
                 FileNotFoundError = true \/
               isinstance (mkExc [FileNotFoundError] "No such file or directory")
                 JSONDecodeError = true)
    by (left; reflexivity).
  split; [exact H1 |]. split; [exact H2 |]. split; [exact H3 |].
  exact (script_load_failure_is_fatal sample_world
           ["url_poller.py"; "missing.json"] _ H1 H2 H3).
Defined.

(** ** The exit status *)

Lemma dict_get_of_key {V} (d : Dict V) k :
  In k (dict_keys d) -> exists v, dict_get d k = Some v.
Proof.
  induction d as [| [k' v'] d IH]; [intros [] |].
  cbn. destruct (String.eqb k' k) eqn:Heq; [now exists v' |].
  intros [-> | Hin]; [| now apply IH].
  now rewrite String.eqb_refl in Heq.
Qed.

Lemma expected_result_complete w self name url r :
  expected_result w self name url r -> complete r.
Proof.
  intros Hr.
  destruct (expected_result_fields _ _ _ _ _ Hr)
    as (Hk & Hn & Hu & status & Hs & _).
  repeat split; [exact Hk | now exists name | now exists url | now exists status].
Qed.

Lemma print_result_complete r :
  complete r -> outcome (print_result true r) = inr tt.
Proof.
  intros (Hk & (name & Hn) & (url & Hu) & (status & Hs)).
  destruct (dict_get_of_key r "status_code") as (sc & Hsc);
    [rewrite Hk; cbn; tauto |].
  destruct (dict_get_of_key r "response_time") as (rt & Hrt);
    [rewrite Hk; cbn; tauto |].
  destruct (dict_get_of_key r "error") as (err & Herr);
    [rewrite Hk; cbn; tauto |].
  now rewrite (print_result_lines r _ _ _ sc rt err Hs Hn ltac:(discriminate)
                 Hu ltac:(discriminate) Hsc Hrt Herr).
Qed.

Lemma for_each_outcome {A} (body : A -> M unit) l :
  (forall x, In x l -> outcome (body x) = inr tt) ->
  outcome (for_each l body) = inr tt.
Proof.
  induction l as [| x l IH]; intros Hb; [reflexivity |].
  cbn [for_each]. rewrite outcome_bind, Hb by now left.
  apply IH. intros. apply Hb. now right.
Qed.

Lemma mapM_getitem_status results :
  Forall complete results ->
  exists statuses,
    mapM (fun r => getitem r "status") results = ([], inr statuses) /\
    List.length (filter (fun s => negb (eq_str s "up" || eq_str s "redirect"))
                   statuses)
    = List.length (filter unhealthy results).
Proof.
  induction 1 as [| r results Hr _ (statuses & Heq & Hcount)].
  - now exists [].
  - destruct Hr as (_ & _ & _ & status & Hs).
    exists (VStr status :: statuses). cbn [mapM]. unfold getitem at 1.
    rewrite Hs, Heq. split; [reflexivity |].
    cbn [filter]. unfold unhealthy at 1. rewrite Hs.
    destruct (negb _); cbn [List.length]; now rewrite Hcount.
Qed.

Lemma print_results_complete w results :
  Forall complete results -> outcome (print_results w results true) = inr tt.
Proof.
  intros Hall. unfold print_results.
  destruct (mapM_getitem_status results Hall) as (statuses & Heq & _).
  rewrite !outcome_bind. cbn [outcome print emit snd]. rewrite Heq.
  cbn [outcome snd]. rewrite !outcome_bind. cbn [outcome print emit snd].
  apply for_each_outcome. intros r Hr. apply print_result_complete.
  rewrite Forall_forall in Hall. now apply Hall.
Qed.

Lemma failed_count_complete results :
  Forall complete results ->
  failed_count results
  = ([], inr (Z.of_nat (List.length (filter unhealthy results)))).
Proof.
  intros Hall. unfold failed_count.
  destruct (mapM_getitem_status results Hall) as (statuses & Heq & Hcount).
  rewrite Heq. cbn. now rewrite Hcount.
Qed.

Lemma poll_print_save_outcome w poller urls_dict :
  0 < max_workers poller ->
  w_write w (output_file w) = None ->
  exists results,
    outcome (poll_urls w poller urls_dict) = inr results /\
    outcome (poll_print_save w poller urls_dict) = inr results /\
    Forall complete results.
Proof.
  intros Hmw Hwrite.
  destruct (poll_urls_returns w poller urls_dict Hmw)
    as (t & keyed & endpoints & Heq & _ & _ & _ & Hall).
  assert (Hcomplete : Forall complete (map snd keyed)).
  { clear - Hall. induction Hall as [| ep r eps rs Hr _ IH]; constructor;
      [| exact IH]. eapply expected_result_complete. exact Hr. }
  exists (map snd keyed). rewrite Heq. split; [reflexivity |].
  split; [| exact Hcomplete].
  unfold poll_print_save. fold (output_file w). rewrite Hwrite.
  rewrite outcome_bind, Heq. cbn [outcome snd].
  rewrite outcome_bind, (print_results_complete w _ Hcomplete).
  rewrite !outcome_bind. reflexivity.
Qed.

(** Run without an argument, and the output file written, the script exits
    with the number of results that are neither ['up'] nor ['redirect']. *)
Lemma script_example_exit_status w argv :
  (List.length argv <= 1)%nat ->
  w_write w (output_file w) = None ->
  exists results,
    outcome (poll_urls w (mkPoller 10 5) example_urls_dict) = inr results /\
    exit_status (script w argv)
    = Z.of_nat (List.length (filter unhealthy results)).
Proof.
  intros Hargv Hwrite. apply Nat.ltb_ge in Hargv.
  destruct (poll_print_save_outcome w (mkPoller 10 5) example_urls_dict)
    as (results & Hpoll & Hsave & Hcomplete); [reflexivity | exact Hwrite |].
  exists results. split; [exact Hpoll |].
  unfold exit_status, script. rewrite Hargv, outcome_bind.
  assert (Hmain : outcome (main w)
                  = inr (Z.of_nat (List.length (filter unhealthy results)))).
  { unfold main. rewrite !outcome_bind. cbn [outcome print emit snd].
    change (build_urls_dict example_urls []) with
      (@ret (Dict string) example_urls_dict).
    cbn [outcome ret snd]. rewrite !outcome_bind. cbn [outcome print emit snd].
    rewrite Hsave.
    now rewrite (failed_count_complete results Hcomplete). }
  now rewrite Hmain.
Qed.




Lemma bind_ret_l {A B} (a : A) (f : A -> M B) : bind (ret a) f = f a.
Proof. unfold bind, ret. now destruct (f a). Qed.



(** C4 at the failing input.  Run with [urls.json], whose one endpoint
    refuses the connection, the script has one result that is neither
    ['up'] nor ['redirect'] and yet exits with status 0; run without an
    argument on three endpoints of which two fail, it exits with 2. *)
Theorem script_file_branch_exit_status_not_failed_count :
  exists results,
    outcome (poll_urls sample_world (mkPoller 10 5)
               [("Down", "https://example.org/down")]) = inr results /\
    map (fun r => dict_get r "status") results
      = [Some (VStr "connection_error")] /\
    outcome (failed_count results) = inr 1 /\
    exit_status (script sample_world ["url_poller.py"; "urls.json"]) = 0 /\
    exit_status (script sample_world ["url_poller.py"]) = 2.
Proof.
  eexists. split; [vm_compute; reflexivity |].
  repeat split; vm_compute; reflexivity.
Qed.

(* ================================================================== *)
(** * Further properties *)

(** ** check_url: the remaining clauses *)

(** X1.  When the request raises a [ConnectionError] that is not a
    [Timeout], the result has status ['connection_error'] and the fixed
    message, whatever the text of the exception; ['status_code'] and
    ['response_time'] stay [None]. *)
Theorem check_url_connection_error self name url o e :
  obs_get o = inl e ->
  isinstance e Timeout = false ->
  isinstance e ConnectionError = true ->
  exists result,
    outcome (check_url self name url o) = inr result /\
    dict_get result "status" = Some (VStr "connection_error") /\
    dict_get result "error" = Some (VStr "Failed to connect to the server") /\
    dict_get result "status_code" = Some VNone /\
    dict_get result "response_time" = Some VNone.
Proof.
  intros Hget Hto Hce.
  destruct (check_url_raises self name url o e Hget)
    as (status & err & Heq & Hse).
  rewrite Hto, Hce in Hse. injection Hse as -> ->.
  rewrite Heq. eexists. split; [reflexivity |].
  cbn. repeat split.
Qed.

Lemma check_url_connection_error_witness :
  obs_get obs_refused
    = inl (mkExc [ConnectionError; RequestException] "connection refused") /\
  exists result,
    outcome (check_url sample_poller "Down" "https://example.org/down"
               obs_refused) = inr result /\
    dict_get result "status" = Some (VStr "connection_error") /\
    dict_get result "error" = Some (VStr "Failed to connect to the server") /\
    dict_get result "status_code" = Some VNone /\
    dict_get result "response_time" = Some VNone.
Proof.
  split; [reflexivity |].
  apply (check_url_connection_error sample_poller "Down"
           "https://example.org/down" obs_refused
           (mkExc [ConnectionError; RequestException] "connection refused"));
    reflexivity.
Defined.

(** X2.  When the request raises neither a [Timeout] nor a
    [ConnectionError], the result has status ['error']; its message is the
    text of the exception for a [RequestException] (a malformed url, too
    many redirects) and that text after ['Unexpected error: '] for any other
    exception. *)
Theorem check_url_other_exception self name url o e :
  obs_get o = inl e ->
  isinstance e Timeout = false ->
  isinstance e ConnectionError = false ->
  exists result message,
    outcome (check_url self name url o) = inr result /\
    dict_get result "status" = Some (VStr "error") /\
    dict_get result "error" = Some (VStr message) /\
    (isinstance e RequestException = true -> message = exc_str e) /\
    (isinstance e RequestException = false ->
     message = "Unexpected error: " +++ exc_str e) /\
    dict_get result "status_code" = Some VNone /\
    dict_get result "response_time" = Some VNone.
Proof.
  intros Hget Hto Hce.
  destruct (check_url_raises self name url o e Hget)
    as (status & err & Heq & Hse).
  rewrite Hto, Hce in Hse. rewrite Heq.
  destruct (isinstance e RequestException); injection Hse as -> ->;
    do 2 eexists; (split; [reflexivity |]); cbn;
    repeat split; congruence.
Qed.

Lemma check_url_other_exception_witness :
  obs_get (obs_raise [RequestException] "Invalid URL 'htp:/x': No scheme supplied")
    = inl (mkExc [RequestException] "Invalid URL 'htp:/x': No scheme supplied") /\
  exists result message,
    outcome (check_url sample_poller "Typo" "htp:/x"
               (obs_raise [RequestException]
                  "Invalid URL 'htp:/x': No scheme supplied")) = inr result /\
    dict_get result "status" = Some (VStr "error") /\
    dict_get result "error" = Some (VStr message) /\
    (isinstance (mkExc [RequestException]
                   "Invalid URL 'htp:/x': No scheme supplied")
       RequestException = true ->
     message = "Invalid URL 'htp:/x': No scheme supplied") /\
    (isinstance (mkExc [RequestException]
                   "Invalid URL 'htp:/x': No scheme supplied")
       RequestException = false ->
     message = "Unexpected error: " +++ "Invalid URL 'htp:/x': No scheme supplied") /\
    dict_get result "status_code" = Some VNone /\
    dict_get result "response_time" = Some VNone.
Proof.
  split; [reflexivity |].
  apply (check_url_other_exception sample_poller "Typo" "htp:/x"
           (obs_raise [RequestException]
              "Invalid URL 'htp:/x': No scheme supplied")
           (mkExc [RequestException]
              "Invalid URL 'htp:/x': No scheme supplied"));
    reflexivity.
Defined.

(** X3.  A result carries a status code and a response time exactly when
    the request was answered, and an error message exactly when it raised:
    of ['error'] and ['status_code'] one and only one is [None]. *)
Theorem check_url_fields_by_outcome self name url o :
  exists result,
    outcome (check_url self name url o) = inr result /\
    (dict_get result "error" = Some VNone <-> exists r, obs_get o = inr r) /\
    (dict_get result "status_code" = Some VNone <->
     exists e, obs_get o = inl e) /\
    (dict_get result "response_time" = Some VNone <->
     exists e, obs_get o = inl e).
Proof.
  destruct (obs_get o) as [e | r] eqn:Hget.
  - destruct (check_url_raises self name url o e Hget)
      as (status & err & Heq & _).
    rewrite Heq. eexists. split; [reflexivity |]. cbn.
    repeat split; try discriminate; eauto.
    intros (r & Hr). discriminate Hr.
  - destruct (check_url_response self name url o r Hget) as (status & Heq & _).
    rewrite Heq. eexists. split; [reflexivity |]. cbn.
    repeat split; try discriminate; eauto;
      intros (e & He); discriminate He.
Qed.

(** ** poll_urls: the requests *)

Lemma collect_trace_eq w self done :
  forall acc, trace (collect w self done acc) = requests_of w self done.
Proof.
  induction done as [| [name url] done IH]; intros acc; [reflexivity |].
  cbn [collect]. rewrite trace_bind.
  destruct (future_result_handled w self name url) as (t & r & Heq & _).
  rewrite Heq. cbn [trace outcome fst snd]. rewrite IH.
  unfold requests_of. cbn [flat_map fst snd]. f_equal.
  unfold future_result in Heq.
  destruct (w_future_exc w name url) as [e |].
  - cbn in Heq. now injection Heq as <- _.
  - destruct (check_url_shape self name url (w_check w name url))
      as (status & sc & rt & err & Hc & _).
    rewrite Hc in Heq. cbn in Heq. now injection Heq as <- _.
Qed.

Lemma sorted_by_name_trace results : trace (sorted_by_name results) = [].
Proof.
  assert (H : Forall (fun _ => False) (trace (sorted_by_name results))).
  { unfold sorted_by_name.
    apply Forall_trace_bind; [| intros; constructor].
    apply Forall_trace_mapM. intros x _.
    apply Forall_trace_bind; [| intros; constructor].
    unfold name_key.
    apply Forall_trace_bind; [apply Forall_trace_getitem |].
    intros [| s | z | q] _; constructor. }
  destruct (trace (sorted_by_name results)); [reflexivity |].
  now apply Forall_inv in H.
Qed.

Lemma poll_urls_trace_eq w self urls :
  0 < max_workers self ->
  trace (poll_urls w self urls)
  = requests_of w self (as_completed (w_completion w) (dict_items urls)).
Proof.
  intros Hmw. unfold poll_urls.
  destruct (max_workers self <=? 0) eqn:Hle; [lia |].
  rewrite trace_bind, collect_trace_eq.
  destruct (outcome _); [apply app_nil_r |].
  rewrite sorted_by_name_trace. apply app_nil_r.
Qed.

Lemma requests_of_listed w self done :
  Forall (fun e => exists name url,
              In (name, url) done /\ e = HttpGet url (timeout self))
    (requests_of w self done) /\
  (List.length (requests_of w self done) <= List.length done)%nat.
Proof.
  induction done as [| [name url] done [IHall IHlen]]; [split; [constructor | reflexivity] |].
  unfold requests_of in *. cbn [flat_map fst snd].
  set (rest := flat_map _ done) in *.
  assert (Hrest : Forall (fun e => exists n u,
                            In (n, u) ((name, url) :: done) /\
                            e = HttpGet u (timeout self)) rest).
  { eapply Forall_impl; [| exact IHall].
    intros e (n & u & Hin & ->). exists n, u. split; [now right | reflexivity]. }
  destruct (w_future_exc w name url); cbn [app List.length].
  - split; [exact Hrest | lia].
  - split; [| lia]. constructor; [| exact Hrest].
    exists name, url. split; [now left | reflexivity].
Qed.

(** X4.  Requests go to urls of the mapping only, each with the timeout of
    the poller, and there are no more requests than entries: nothing is
    retried. *)
Theorem poll_urls_requests_only_listed w self urls :
  Forall (fun e => exists name url,
              In (name, url) urls /\ e = HttpGet url (timeout self))
    (trace (poll_urls w self urls)) /\
  (List.length (trace (poll_urls w self urls)) <= List.length urls)%nat.
Proof.
  destruct (Z.ltb_spec 0 (max_workers self)) as [Hmw | Hmw].
  - rewrite (poll_urls_trace_eq w self urls Hmw).
    pose proof (as_completed_perm (w_completion w) (dict_items urls)) as Hperm.
    destruct (requests_of_listed w self
                (as_completed (w_completion w) (dict_items urls)))
      as [Hall Hlen].
    split.
    + eapply Forall_impl; [| exact Hall].
      intros e (name & url & Hin & ->). exists name, url.
      split; [| reflexivity]. exact (Permutation_in _ Hperm Hin).
    + rewrite (Permutation_length Hperm) in Hlen. exact Hlen.
  - unfold poll_urls. apply Z.leb_le in Hmw. rewrite Hmw.
    split; [constructor | apply Nat.le_0_l].
Qed.

(** X5.  When no future raises, the requests of a run are exactly one per
    entry of the mapping, in the order of completion. *)
Theorem poll_urls_one_request_per_endpoint w self urls :
  0 < max_workers self ->
  (forall name url, In (name, url) urls -> w_future_exc w name url = None) ->
  Permutation (trace (poll_urls w self urls))
    (map (fun ep => HttpGet (snd ep) (timeout self)) urls).
Proof.
  intros Hmw Hquiet. rewrite (poll_urls_trace_eq w self urls Hmw).
  pose proof (as_completed_perm (w_completion w) (dict_items urls)) as Hperm.
  rewrite <- (Permutation_map _ Hperm).
  assert (Hdone : forall ep,
             In ep (as_completed (w_completion w) (dict_items urls)) ->
             w_future_exc w (fst ep) (snd ep) = None).
  { intros [name url] Hin. apply Hquiet. exact (Permutation_in _ Hperm Hin). }
  clear Hperm. unfold requests_of.
  induction (as_completed (w_completion w) (dict_items urls)) as [| ep done IH];
    [reflexivity |].
  cbn [flat_map map]. rewrite (Hdone ep) by now left.
  cbn [app]. constructor. apply IH. intros. apply Hdone. now right.
Qed.

Lemma poll_urls_one_request_per_endpoint_witness :
  0 < max_workers sample_poller /\
  (forall name url, In (name, url) sample_urls ->
                    w_future_exc quiet_world name url = None) /\
  Permutation (trace (poll_urls quiet_world sample_poller sample_urls))
    (map (fun ep => HttpGet (snd ep) (timeout sample_poller)) sample_urls).
Proof.
  assert (Hmw : 0 < max_workers sample_poller) by reflexivity.
  assert (Hquiet : forall name url, In (name, url) sample_urls ->
                                    w_future_exc quiet_world name url = None)
    by reflexivity.
  split; [exact Hmw |]. split; [exact Hquiet |].
  exact (poll_urls_one_request_per_endpoint quiet_world sample_poller
           sample_urls Hmw Hquiet).
Defined.

Lemma poll_urls_order_independent_witness :
  0 < max_workers sample_poller /\
  NoDup (dict_keys sample_urls) /\
  outcome (poll_urls (with_completion sample_world [3; 1; 0; 0]%nat)
             sample_poller sample_urls)
  = outcome (poll_urls (with_completion sample_world [0; 2; 1; 5]%nat)
               sample_poller sample_urls).
Proof.
  assert (Hmw : 0 < max_workers sample_poller) by reflexivity.
  assert (Hnd : NoDup (dict_keys sample_urls)).
  { repeat constructor; simpl; intuition discriminate. }
  split; [exact Hmw |]. split; [exact Hnd |].
  exact (poll_urls_order_independent sample_world [3; 1; 0; 0]%nat
           [0; 2; 1; 5]%nat sample_poller sample_urls Hmw Hnd).
Defined.

(** ** print_results: what is printed *)

Lemma M_ext {A} (m : M A) t o : trace m = t -> outcome m = o -> m = (t, o).
Proof. destruct m. cbn. now intros -> ->. Qed.

Lemma get_or_none_some r k v : dict_get r k = Some v -> get_or_none r k = v.
Proof. unfold get_or_none. now intros ->. Qed.

Lemma complete_printable r : complete r -> printable r.
Proof.
  intros (Hk & (name & Hn) & (url & Hu) & _).
  split; [| split; congruence].
  intros k Hin. destruct (dict_get_of_key r k) as (v & Hv);
    [now rewrite Hk | congruence].
Qed.

Lemma Forall_complete_printable results :
  Forall complete results -> Forall printable results.
Proof. apply Forall_impl, complete_printable. Qed.

Lemma printable_key r k :
  printable r -> In k result_keys -> exists v, dict_get r k = Some v.
Proof.
  intros (Hk & _) Hin. specialize (Hk k Hin).
  destruct (dict_get r k) as [v |]; [now exists v | contradiction].
Qed.

Lemma print_result_eq show_details r :
  printable r -> print_result show_details r = (result_lines show_details r, inr tt).
Proof.
  intros Hp.
  destruct (printable_key r "status" Hp) as (status & Hs); [cbn; tauto |].
  destruct (printable_key r "name" Hp) as (name & Hn); [cbn; tauto |].
  destruct (printable_key r "url" Hp) as (url & Hu); [cbn; tauto |].
  destruct (printable_key r "status_code" Hp) as (sc & Hsc); [cbn; tauto |].
  destruct (printable_key r "response_time" Hp) as (rt & Hrt); [cbn; tauto |].
  destruct (printable_key r "error" Hp) as (err & Herr); [cbn; tauto |].
  assert (Hname : name <> VNone) by (destruct Hp as (_ & H & _); congruence).
  assert (Hurl : url <> VNone) by (destruct Hp as (_ & _ & H); congruence).
  unfold result_lines.
  rewrite (get_or_none_some _ _ _ Hs), (get_or_none_some _ _ _ Hn),
    (get_or_none_some _ _ _ Hu), (get_or_none_some _ _ _ Hsc),
    (get_or_none_some _ _ _ Hrt), (get_or_none_some _ _ _ Herr).
  destruct show_details.
  - apply (print_result_lines r _ _ _ sc rt err Hs Hn Hname Hu Hurl
             Hsc Hrt Herr).
  - unfold print_result, getitem. rewrite Hs, Hn, Hu.
    destruct name; [contradiction | | |]; destruct url;
      try contradiction; reflexivity.
Qed.

Lemma for_each_eq {A} (body : A -> M unit) (f : A -> list Event) l :
  (forall x, In x l -> body x = (f x, inr tt)) ->
  for_each l body = (flat_map f l, inr tt).
Proof.
  induction l as [| x l IH]; intros Hb; [reflexivity |].
  cbn [for_each flat_map].
  rewrite (bind_inr _ _ _ _ (Hb x (or_introl eq_refl))), IH;
    [reflexivity | intros; apply Hb; now right].
Qed.

Lemma mapM_status_eq results :
  Forall printable results ->
  mapM (fun r => getitem r "status") results
  = ([], inr (map (fun r => get_or_none r "status") results)).
Proof.
  induction 1 as [| r results Hp _ IH]; [reflexivity |].
  destruct (printable_key r "status" Hp) as (status & Hs); [cbn; tauto |].
  cbn [mapM map]. unfold getitem at 1.
  rewrite IH, (get_or_none_some _ _ _ Hs), Hs. reflexivity.
Qed.

Lemma filter_map_length {A B} (p : B -> bool) (f : A -> B) l :
  List.length (filter p (map f l)) = List.length (filter (fun x => p (f x)) l).
Proof.
  induction l as [| x l IH]; [reflexivity |].
  cbn [map filter]. destruct (p (f x)); cbn [List.length]; now rewrite IH.
Qed.

Lemma print_results_eq w results show_details :
  Forall printable results ->
  print_results w results show_details
  = (report_header w ++ summary_lines results
     ++ flat_map (result_lines show_details) results, inr tt).
Proof.
  intros Hall. unfold print_results.
  rewrite (mapM_status_eq results Hall).
  rewrite (for_each_eq _ (result_lines show_details)).
  - cbn [bind print emit ret app]. unfold summary_lines, is_up.
    now rewrite filter_map_length.
  - intros r Hr. apply print_result_eq.
    rewrite Forall_forall in Hall. now apply Hall.
Qed.

Lemma poll_urls_complete w self urls results :
  outcome (poll_urls w self urls) = inr results -> Forall complete results.
Proof.
  intros Hres.
  assert (Hmw : 0 < max_workers self).
  { unfold poll_urls in Hres.
    destruct (max_workers self <=? 0) eqn:Hle; [discriminate | lia]. }
  destruct (poll_urls_returns w self urls Hmw)
    as (t & keyed & endpoints & Heq & _ & _ & _ & Hall).
  rewrite Heq in Hres. cbn in Hres. injection Hres as <-.
  clear - Hall. induction Hall as [| ep r eps rs Hr _ IH]; constructor;
    [| exact IH]. eapply expected_result_complete. exact Hr.
Qed.



(** When the name of a result is [None], the line of that result cannot
    be formatted: [print_results] raises [TypeError] after the header, the
    summary and the lines of the results before it. *)
Example print_results_none_name :
  print_results sample_world
    [ sample_result_up;
      [ ("name", VNone); ("url", VStr "https://example.org/");
        ("status", VStr "up"); ("status_code", VInt 200);
        ("response_time", VNone); ("error", VNone);
        ("timestamp", VStr "2024-03-09T14:05:07") ] ] false
  = (report_header sample_world
     ++ [ Stdout (Text "Summary: 2/2 URLs are responding"); Stdout (Text "") ]
     ++ result_lines false sample_result_up,
     inl (Raise (mkExc [TypeError]
                   "unsupported format string passed to NoneType.__format__"))).
Proof. vm_compute. reflexivity. Qed.

Lemma mapM_status_missing results :
  Exists (fun r => dict_get r "status" = None) results ->
  mapM (fun r => @getitem PyVal r "status") results
  = ([], inl (Raise (mkExc [KeyError] "'status'"))).
Proof.
  induction results as [| r results IH]; intros Hex;
    [now apply Exists_nil in Hex |].
  cbn [mapM]. unfold getitem at 1.
  destruct (dict_get r "status") as [v |] eqn:Hs; [| reflexivity].
  apply Exists_cons in Hex as [Hr | Hex]; [congruence |].
  rewrite (IH Hex). reflexivity.
Qed.

(** X7.  When some result has no ['status'] key, [print_results] raises
    [KeyError] while counting, after the three header lines: neither the
    summary nor any result is printed, not even those before the bad one. *)
Theorem print_results_missing_status w results show_details :
  Exists (fun r => dict_get r "status" = None) results ->
  print_results w results show_details
  = (report_header w, inl (Raise (mkExc [KeyError] "'status'"))).
Proof.
  intros Hex. unfold print_results.
  rewrite (mapM_status_missing results Hex). reflexivity.
Qed.

Lemma print_results_missing_status_witness :
  Exists (fun r => dict_get r "status" = None)
    [sample_result_up; sample_result_no_status] /\
  print_results sample_world [sample_result_up; sample_result_no_status] true
  = (report_header sample_world, inl (Raise (mkExc [KeyError] "'status'"))).
Proof.
  assert (Hex : Exists (fun r => dict_get r "status" = None)
                  [sample_result_up; sample_result_no_status]).
  { apply Exists_cons_tl. apply Exists_cons_hd. reflexivity. }
  split; [exact Hex |].
  exact (print_results_missing_status sample_world
           [sample_result_up; sample_result_no_status] true Hex).
Defined.



(** ** The mapping built from the input items *)

Lemma dict_get_set {V} (d : Dict V) k v k' :
  dict_get (dict_set d k v) k'
  = if String.eqb k k' then Some v else dict_get d k'.
Proof.
  induction d as [| [k0 v0] d IH]; cbn.
  - reflexivity.
  - destruct (String.eqb k0 k) eqn:H0; cbn.
    + apply String.eqb_eq in H0. subst k0.
      now destruct (String.eqb k k').
    + destruct (String.eqb k0 k') eqn:H1; [| exact IH].
      apply String.eqb_eq in H1. subst k0.
      rewrite String.eqb_sym in H0. now rewrite H0.
Qed.

Lemma dict_set_keys_in {V} (d : Dict V) k v k' :
  In k' (dict_keys (dict_set d k v)) -> k' = k \/ In k' (dict_keys d).
Proof.
  induction d as [| [k0 v0] d IH]; cbn.
  - intros [<- | []]. now left.
  - destruct (String.eqb k0 k); cbn; [tauto |].
    intros [<- | Hin]; [tauto |]. destruct (IH Hin); tauto.
Qed.

Lemma dict_set_NoDup {V} (d : Dict V) k v :
  NoDup (dict_keys d) -> NoDup (dict_keys (dict_set d k v)).
Proof.
  induction d as [| [k0 v0] d IH]; cbn; intros Hnd.
  - repeat constructor. intros [].
  - apply NoDup_cons_iff in Hnd as [Hnotin Hnd].
    destruct (String.eqb k0 k) eqn:H0; cbn; constructor; auto.
    intros Hin. apply dict_set_keys_in in Hin as [-> | Hin]; [| auto].
    now rewrite String.eqb_refl in H0.
Qed.

Lemma dict_set_length {V} (d : Dict V) k v :
  (List.length (dict_set d k v) <= S (List.length d))%nat.
Proof.
  induction d as [| [k0 v0] d IH]; cbn; [lia |].
  destruct (String.eqb k0 k); cbn; lia.
Qed.

Lemma build_urls_dict_spec urls :
  Forall item_ok urls ->
  forall acc,
  exists d,
    build_urls_dict urls acc = ([], inr d) /\
    (NoDup (dict_keys acc) -> NoDup (dict_keys d)) /\
    (List.length d <= List.length acc + List.length urls)%nat /\
    forall caption,
      dict_get d caption
      = match url_of_caption urls caption with
        | Some url => Some url
        | None => dict_get acc caption
        end.
Proof.
  induction 1 as [| item urls [(url & Hu) (caption & Hc)] _ IH]; intros acc.
  - exists acc. cbn. repeat split; [tauto | lia].
  - destruct (IH (dict_set acc caption url)) as (d & Heq & Hnd & Hlen & Hget).
    exists d. cbn [build_urls_dict]. unfold getitem. rewrite Hu, Hc.
    split; [cbn [bind ret]; rewrite Heq; reflexivity |]. split; [| split].
    + intros Hacc. apply Hnd. now apply dict_set_NoDup.
    + pose proof (dict_set_length acc caption url). cbn [List.length]. lia.
    + intros c. rewrite Hget. cbn [url_of_caption]. rewrite Hc, Hu.
      destruct (url_of_caption urls c); [reflexivity |].
      rewrite dict_get_set. now destruct (String.eqb caption c).
Qed.

(** X9.  From items that have both keys the loop builds a mapping with one
    entry per distinct caption: when several items share a caption, the url
    of the last one is kept and the earlier ones are not polled. *)
Theorem build_urls_dict_last_caption_wins urls :
  Forall item_ok urls ->
  exists urls_dict,
    build_urls_dict urls [] = ([], inr urls_dict) /\
    NoDup (dict_keys urls_dict) /\
    (List.length urls_dict <= List.length urls)%nat /\
    forall caption, dict_get urls_dict caption = url_of_caption urls caption.
Proof.
  intros Hok.
  destruct (build_urls_dict_spec urls Hok []) as (d & Heq & Hnd & Hlen & Hget).
  exists d. split; [exact Heq |]. split; [apply Hnd; constructor |].
  split; [exact Hlen |].
  intros c. rewrite Hget. now destruct (url_of_caption urls c).
Qed.

Lemma build_urls_dict_last_caption_wins_witness :
  Forall item_ok sample_items_shared_caption /\
  exists urls_dict,
    build_urls_dict sample_items_shared_caption [] = ([], inr urls_dict) /\
    NoDup (dict_keys urls_dict) /\
    (List.length urls_dict <= List.length sample_items_shared_caption)%nat /\
    forall caption,
      dict_get urls_dict caption
      = url_of_caption sample_items_shared_caption caption.
Proof.
  assert (Hok : Forall item_ok sample_items_shared_caption).
  { repeat constructor; eexists; reflexivity. }
  split; [exact Hok |].
  exact (build_urls_dict_last_caption_wins sample_items_shared_caption Hok).
Defined.

(** The sample, evaluated: Site keeps its place and gets the later url. *)
Example build_urls_dict_shared_caption :
  build_urls_dict sample_items_shared_caption []
  = ([], inr [ ("Site", "https://new.example.org");
               ("Other", "https://example.org/b") ]).
Proof. reflexivity. Qed.

Lemma build_urls_dict_json_missing before item after key :
  Forall item_stored before ->
  missing_key item = Some key ->
  forall urls_dict,
    build_urls_dict_json (before ++ item :: after) urls_dict
    = ([], inl (Raise (mkExc [KeyError] ("'" +++ key +++ "'")))).
Proof.
  intros Hbefore Hkey.
  induction Hbefore as [| first before (d & url & caption & -> & Hu & Hc & Hh) _ IH];
    intros urls_dict.
  - cbn [app build_urls_dict_json].
    destruct item as [| b | z | x | s | l | d]; try discriminate.
    cbn [missing_key] in Hkey. cbn [subscript]. unfold getitem.
    destruct (dict_get d "url") as [url |]; [| now injection Hkey as <-].
    destruct (dict_get d "caption") as [caption |]; [discriminate |].
    now injection Hkey as <-.
  - cbn [app build_urls_dict_json subscript]. unfold getitem.
    rewrite Hu, Hc. rewrite !bind_ret_l, Hh. apply IH.
Qed.

Lemma missing_key_cases item key :
  missing_key item = Some key -> key = "url" \/ key = "caption".
Proof.
  destruct item as [| b | z | x | s | l | d]; try discriminate.
  cbn [missing_key].
  destruct (dict_get d "url"); [destruct (dict_get d "caption") |];
    intros [= <-]; tauto.
Qed.

(** X10.  When the input file holds an array in which an object lacks
    ['url'] or ['caption'], the items before it being objects with both
    keys and a caption that can be a key, the script stops with a
    [KeyError] naming the key before it prints or requests anything, also
    for the items before the bad one; the exit status is 1. *)
Theorem script_item_missing_key w argv before item after key :
  (1 < List.length argv)%nat ->
  w_load w (nth 1 argv "") = inr (JsList (before ++ item :: after)) ->
  Forall item_stored before ->
  missing_key item = Some key ->
  (key = "url" \/ key = "caption") /\
  script w argv = ([], inl (Raise (mkExc [KeyError] ("'" +++ key +++ "'")))) /\
  exit_status (script w argv) = 1.
Proof.
  intros Hargv Hload Hbefore Hkey. apply Nat.ltb_lt in Hargv.
  split; [exact (missing_key_cases item key Hkey) |].
  assert (Hscript : script w argv
                    = ([], inl (Raise (mkExc [KeyError] ("'" +++ key +++ "'"))))).
  { unfold script, load_urls_from_file. rewrite Hargv, Hload.
    cbn [try_except ret]. rewrite bind_ret_l. cbn [iterate].
    rewrite bind_ret_l.
    now rewrite (build_urls_dict_json_missing before item after key Hbefore Hkey). }
  rewrite Hscript. split; reflexivity.
Qed.

Lemma script_item_missing_key_witness :
  (1 < List.length ["url_poller.py"; "items.json"])%nat /\
  w_load no_url_world (nth 1 ["url_poller.py"; "items.json"] "")
    = inr (JsList ([ JsDict [ ("url", JsStr "https://example.org/a");
                              ("caption", JsStr "A") ] ]
                   ++ JsDict [ ("caption", JsStr "B") ] :: [])) /\
  Forall item_stored [ JsDict [ ("url", JsStr "https://example.org/a");
                                ("caption", JsStr "A") ] ] /\
  missing_key (JsDict [ ("caption", JsStr "B") ]) = Some "url" /\
  ("url" = "url" \/ "url" = "caption") /\
  script no_url_world ["url_poller.py"; "items.json"]
    = ([], inl (Raise (mkExc [KeyError] ("'" +++ "url" +++ "'")))) /\
  exit_status (script no_url_world ["url_poller.py"; "items.json"]) = 1.
Proof.
  assert (H1 : (1 < List.length ["url_poller.py"; "items.json"])%nat)
    by (simpl; lia).
  assert (H2 : w_load no_url_world (nth 1 ["url_poller.py"; "items.json"] "")
               = inr (JsList ([ JsDict [ ("url", JsStr "https://example.org/a");
                                         ("caption", JsStr "A") ] ]
                              ++ JsDict [ ("caption", JsStr "B") ] :: [])))
    by reflexivity.
  assert (H3 : Forall item_stored
                 [ JsDict [ ("url", JsStr "https://example.org/a");
                            ("caption", JsStr "A") ] ]).
  { repeat constructor. do 3 eexists. repeat split; reflexivity. }
  assert (H4 : missing_key (JsDict [ ("caption", JsStr "B") ]) = Some "url")
    by reflexivity.
  split; [exact H1 |]. split; [exact H2 |]. split; [exact H3 |].
  split; [exact H4 |].
  exact (script_item_missing_key no_url_world ["url_poller.py"; "items.json"]
           _ _ _ _ H1 H2 H3 H4).
Defined.

(** An item that is no object, or a caption that is a list, raises
    [TypeError] instead. *)
Example script_item_not_an_object :
  build_urls_dict_json
    [ JsDict [ ("url", JsStr "https://example.org/a"); ("caption", JsStr "A") ];
      JsStr "https://example.org/b" ] (Some [])
  = ([], inl (Raise (mkExc [TypeError]
                       "string indices must be integers, not 'str'"))) /\
  build_urls_dict_json
    [ JsDict [ ("url", JsStr "https://example.org/a");
               ("caption", JsList [JsStr "A"]) ];
      JsDict [ ("caption", JsStr "B") ] ] (Some [])
  = ([], inl (Raise (mkExc [TypeError] "unhashable type: 'list'"))).
Proof. split; reflexivity. Qed.

(** X18.  The format the docstring of [load_urls_from_file] gives, an
    object of names and urls, is not the one the script reads: the loop
    takes the first name for an item, and indexing a string by ['url']
    raises [TypeError] before anything is printed or requested. *)
Theorem script_documented_format_raises w argv name url rest :
  (1 < List.length argv)%nat ->
  w_load w (nth 1 argv "") = inr (JsDict ((name, url) :: rest)) ->
  exists message,
    script w argv = ([], inl (Raise (mkExc [TypeError] message))) /\
    exit_status (script w argv) = 1.
Proof.
  intros Hargv Hload. apply Nat.ltb_lt in Hargv.
  exists "string indices must be integers, not 'str'".
  assert (Hscript :
           script w argv
           = ([], inl (Raise (mkExc [TypeError]
                                "string indices must be integers, not 'str'")))).
  { unfold script, load_urls_from_file. rewrite Hargv, Hload.
    cbn [try_except ret]. rewrite bind_ret_l. cbn [iterate map fst].
    rewrite bind_ret_l. reflexivity. }
  rewrite Hscript. split; reflexivity.
Qed.

Lemma script_documented_format_raises_witness :
  (1 < List.length ["url_poller.py"; "urls.json"])%nat /\
  w_load documented_world (nth 1 ["url_poller.py"; "urls.json"] "")
    = inr (JsDict (("name1", JsStr "https://example1.com")
                   :: [("name2", JsStr "https://example2.com")])) /\
  exists message,
    script documented_world ["url_poller.py"; "urls.json"]
      = ([], inl (Raise (mkExc [TypeError] message))) /\
    exit_status (script documented_world ["url_poller.py"; "urls.json"]) = 1.
Proof.
  assert (H1 : (1 < List.length ["url_poller.py"; "urls.json"])%nat)
    by (simpl; lia).
  assert (H2 : w_load documented_world
                 (nth 1 ["url_poller.py"; "urls.json"] "")
               = inr (JsDict (("name1", JsStr "https://example1.com")
                              :: [("name2", JsStr "https://example2.com")])))
    by reflexivity.
  split; [exact H1 |]. split; [exact H2 |].
  exact (script_documented_format_raises documented_world
           ["url_poller.py"; "urls.json"] _ _ _ H1 H2).
Defined.

(** X11.  [load_urls_from_file] catches only a missing file and invalid
    JSON: any other error of [open] or [json.load] (a file that may not be
    read, a directory) passes through uncaught, with no diagnostic printed,
    and the script ends with exit status 1. *)
Theorem script_load_error_propagates w argv e :
  (1 < List.length argv)%nat ->
  w_load w (nth 1 argv "") = inl e ->
  isinstance e FileNotFoundError = false ->
  isinstance e JSONDecodeError = false ->
  load_urls_from_file w (nth 1 argv "") = ([], inl (Raise e)) /\
  script w argv = ([], inl (Raise e)) /\
  exit_status (script w argv) = 1.
Proof.
  intros Hargv Hload Hfnf Hjson. apply Nat.ltb_lt in Hargv.
  assert (Hl : load_urls_from_file w (nth 1 argv "") = ([], inl (Raise e))).
  { unfold load_urls_from_file. rewrite Hload.
    cbn [try_except raise find_handler]. now rewrite Hfnf, Hjson. }
  assert (Hs : script w argv = ([], inl (Raise e))).
  { unfold script. now rewrite Hargv, Hl. }
  rewrite Hs. repeat split. exact Hl.
Qed.

Lemma script_load_error_propagates_witness :
  (1 < List.length ["url_poller.py"; "urls.json"])%nat /\
  w_load locked_world (nth 1 ["url_poller.py"; "urls.json"] "")
    = inl (mkExc [] "[Errno 13] Permission denied") /\
  load_urls_from_file locked_world (nth 1 ["url_poller.py"; "urls.json"] "")
    = ([], inl (Raise (mkExc [] "[Errno 13] Permission denied"))) /\
  script locked_world ["url_poller.py"; "urls.json"]
    = ([], inl (Raise (mkExc [] "[Errno 13] Permission denied"))) /\
  exit_status (script locked_world ["url_poller.py"; "urls.json"]) = 1.
Proof.
  assert (H1 : (1 < List.length ["url_poller.py"; "urls.json"])%nat)
    by (simpl; lia).
  assert (H2 : w_load locked_world (nth 1 ["url_poller.py"; "urls.json"] "")
               = inl (mkExc [] "[Errno 13] Permission denied")) by reflexivity.
  split; [exact H1 |]. split; [exact H2 |].
  exact (script_load_error_propagates locked_world
           ["url_poller.py"; "urls.json"] _ H1 H2 eq_refl eq_refl).
Defined.

(** ** The run as a whole *)

Lemma poll_print_save_eq w poller urls_dict t results :
  poll_urls w poller urls_dict = (t, inr results) ->
  w_write w (output_file w) = None ->
  poll_print_save w poller urls_dict
  = (t ++ (report_header w ++ summary_lines results
           ++ flat_map (result_lines true) results)
       ++ [ FileWrite (output_file w) (json_dump results);
            Stdout (Text (newline +++ "Results saved to: " +++ output_file w)) ],
     inr results).
Proof.
  intros Hpoll Hwrite.
  assert (Hall : Forall printable results).
  { apply Forall_complete_printable, (poll_urls_complete w poller urls_dict).
    now rewrite Hpoll. }
  unfold poll_print_save. fold (output_file w). rewrite Hwrite.
  rewrite (bind_inr _ _ _ _ Hpoll).
  rewrite (print_results_eq w results true Hall).
  reflexivity.
Qed.

Lemma poll_print_save_write_fails w poller urls_dict t results e :
  poll_urls w poller urls_dict = (t, inr results) ->
  w_write w (output_file w) = Some e ->
  poll_print_save w poller urls_dict
  = (t ++ report_header w ++ summary_lines results
       ++ flat_map (result_lines true) results,
     inl (Raise e)).
Proof.
  intros Hpoll Hwrite.
  assert (Hall : Forall printable results).
  { apply Forall_complete_printable, (poll_urls_complete w poller urls_dict).
    now rewrite Hpoll. }
  unfold poll_print_save. fold (output_file w). rewrite Hwrite.
  rewrite (bind_inr _ _ _ _ Hpoll).
  rewrite (print_results_eq w results true Hall).
  cbn [bind raise trace outcome fst snd]. now rewrite !app_nil_r.
Qed.

(** X12.  Run without an argument, and the output file written without an
    error, the script prints its two opening lines and the mapping, sends
    the requests, prints the report, writes the results once, to
    [url_poll_results_<stamp>.json], and prints where it saved them, in
    this order: the file is written after every request has completed and
    holds the three results in the order of the report. *)
Theorem script_example_trace w argv :
  (List.length argv <= 1)%nat ->
  w_write w (output_file w) = None ->
  exists results,
    outcome (poll_urls w (mkPoller 10 5) example_urls_dict) = inr results /\
    List.length results = 3%nat /\
    trace (script w argv)
    = [ Stdout (Text "Starting URL polling...");
        Stdout (Text "Checking 3 URLs with 5 concurrent workers");
        Stdout (DictRepr example_urls_dict) ]
      ++ trace (poll_urls w (mkPoller 10 5) example_urls_dict)
      ++ (report_header w ++ summary_lines results
          ++ flat_map (result_lines true) results)
      ++ [ FileWrite (output_file w) (json_dump results);
           Stdout (Text (newline +++ "Results saved to: " +++ output_file w)) ].
Proof.
  intros Hargv Hwrite. apply Nat.ltb_ge in Hargv.
  destruct (poll_urls_returns w (mkPoller 10 5) example_urls_dict eq_refl)
    as (t & keyed & endpoints & Hpoll & _ & _ & Hperm & Hall).
  exists (map snd keyed). rewrite Hpoll. split; [reflexivity |]. split.
  - rewrite <- (Forall2_length Hall). exact (Permutation_length Hperm).
  - unfold script. rewrite Hargv, trace_bind. unfold main.
    change (build_urls_dict example_urls []) with
      (@ret (Dict string) example_urls_dict).
    cbn [bind print emit ret].
    rewrite (poll_print_save_eq _ _ _ _ _ Hpoll Hwrite).
    cbn [bind]. rewrite (failed_count_complete (map snd keyed)).
    + cbn [trace outcome fst snd sys_exit app]. rewrite !app_nil_r.
      now rewrite <- !app_assoc.
    + apply (poll_urls_complete w (mkPoller 10 5) example_urls_dict).
      now rewrite Hpoll.
Qed.

Lemma script_example_trace_witness :
  (List.length ["url_poller.py"] <= 1)%nat /\
  w_write sample_world (output_file sample_world) = None /\
  exists results,
    outcome (poll_urls sample_world (mkPoller 10 5) example_urls_dict)
      = inr results /\
    List.length results = 3%nat /\
    trace (script sample_world ["url_poller.py"])
    = [ Stdout (Text "Starting URL polling...");
        Stdout (Text "Checking 3 URLs with 5 concurrent workers");
        Stdout (DictRepr example_urls_dict) ]
      ++ trace (poll_urls sample_world (mkPoller 10 5) example_urls_dict)
      ++ (report_header sample_world ++ summary_lines results
          ++ flat_map (result_lines true) results)
      ++ [ FileWrite (output_file sample_world) (json_dump results);
           Stdout (Text (newline +++ "Results saved to: "
                         +++ output_file sample_world)) ].
Proof.
  assert (H : (List.length ["url_poller.py"] <= 1)%nat) by (simpl; lia).
  assert (Hw : w_write sample_world (output_file sample_world) = None)
    by reflexivity.
  split; [exact H |]. split; [exact Hw |].
  exact (script_example_trace sample_world ["url_poller.py"] H Hw).
Defined.

Lemma filter_length_zero {A} (p : A -> bool) l :
  List.length (filter p l) = 0%nat <-> forall x, In x l -> p x = false.
Proof.
  induction l as [| x l IH]; cbn; [tauto |].
  destruct (p x) eqn:Hp; cbn.
  - split; [discriminate |]. intros H. specialize (H x (or_introl eq_refl)).
    congruence.
  - rewrite IH. split.
    + intros H y [<- | Hy]; auto.
    + intros H y Hy. apply H. now right.
Qed.

Lemma filter_disjoint_length {A} (p q : A -> bool) l :
  (forall x, p x = true -> q x = false) ->
  (List.length (filter p l) + List.length (filter q l) <= List.length l)%nat.
Proof.
  intros Hpq. induction l as [| x l IH]; cbn; [lia |].
  destruct (p x) eqn:Hp; [rewrite (Hpq x Hp) |]; [cbn; lia |].
  destruct (q x); cbn; lia.
Qed.

(** X13.  On results that have their keys, the count behind the exit
    status is 0 exactly when every status is ['up'] or ['redirect']; a
    result counts either as failed or, when ['up'], in the summary, never
    as both, and a redirect as neither. *)
Theorem failed_count_zero_iff_all_healthy results :
  Forall complete results ->
  exists n,
    failed_count results = ([], inr n) /\
    0 <= n <= Z.of_nat (List.length results) /\
    (n = 0 <->
     forall r, In r results ->
       dict_get r "status" = Some (VStr "up") \/
       dict_get r "status" = Some (VStr "redirect")) /\
    n + Z.of_nat (List.length (filter is_up results))
    <= Z.of_nat (List.length results).
Proof.
  intros Hall.
  exists (Z.of_nat (List.length (filter unhealthy results))).
  split; [now apply failed_count_complete |].
  pose proof (filter_length_le unhealthy results) as Hle.
  split; [lia |]. split.
  - rewrite <- Nat2Z.inj_0, Nat2Z.inj_iff, filter_length_zero.
    rewrite Forall_forall in Hall.
    split; intros H r Hr; specialize (H r Hr);
      destruct (Hall r Hr) as (_ & _ & _ & status & Hs);
      unfold unhealthy in *; rewrite Hs in *; cbn [eq_str] in *.
    + apply negb_false_iff, orb_true_iff in H as [H | H];
        apply String.eqb_eq in H; subst; tauto.
    + apply negb_false_iff, orb_true_iff.
      destruct H as [[= ->] | [= ->]]; [left | right]; reflexivity.
  - pose proof (filter_disjoint_length unhealthy is_up results) as Hd.
    assert (Hpq : forall r, unhealthy r = true -> is_up r = false).
    { intros r. unfold unhealthy, is_up, get_or_none.
      destruct (dict_get r "status") as [s |]; [| reflexivity].
      destruct (eq_str s "up"); [discriminate | reflexivity]. }
    specialize (Hd Hpq). lia.
Qed.

Lemma failed_count_zero_iff_all_healthy_witness :
  Forall complete sample_results /\
  exists n,
    failed_count sample_results = ([], inr n) /\
    0 <= n <= Z.of_nat (List.length sample_results) /\
    (n = 0 <->
     forall r, In r sample_results ->
       dict_get r "status" = Some (VStr "up") \/
       dict_get r "status" = Some (VStr "redirect")) /\
    n + Z.of_nat (List.length (filter is_up sample_results))
    <= Z.of_nat (List.length sample_results).
Proof.
  assert (Hall : Forall complete sample_results).
  { repeat constructor; eexists; reflexivity. }
  split; [exact Hall |].
  exact (failed_count_zero_iff_all_healthy sample_results Hall).
Defined.

(** X14.  Run without an argument, and the output file written without an
    error, the script exits with the number of its three results that are
    neither ['up'] nor ['redirect'], a status between 0 and 3. *)
Theorem script_example_exit_status_bounded w argv :
  (List.length argv <= 1)%nat ->
  w_write w (output_file w) = None ->
  exists results,
    outcome (poll_urls w (mkPoller 10 5) example_urls_dict) = inr results /\
    exit_status (script w argv)
    = Z.of_nat (List.length (filter unhealthy results)) /\
    0 <= exit_status (script w argv) <= 3.
Proof.
  intros Hargv Hwrite.
  destruct (script_example_exit_status w argv Hargv Hwrite)
    as (results & Hres & Hexit).
  exists results. split; [exact Hres |]. split; [exact Hexit |].
  rewrite Hexit.
  destruct (poll_urls_returns w (mkPoller 10 5) example_urls_dict eq_refl)
    as (t & keyed & endpoints & Hpoll & _ & _ & Hperm & Hall).
  rewrite Hpoll in Hres. cbn in Hres. injection Hres as <-.
  pose proof (filter_length_le unhealthy (map snd keyed)) as Hle.
  rewrite <- (Forall2_length Hall), (Permutation_length Hperm) in Hle.
  cbn in Hle. lia.
Qed.

Lemma script_example_exit_status_bounded_witness :
  (List.length ["url_poller.py"] <= 1)%nat /\
  w_write sample_world (output_file sample_world) = None /\
  exists results,
    outcome (poll_urls sample_world (mkPoller 10 5) example_urls_dict)
      = inr results /\
    exit_status (script sample_world ["url_poller.py"])
    = Z.of_nat (List.length (filter unhealthy results)) /\
    0 <= exit_status (script sample_world ["url_poller.py"]) <= 3.
Proof.
  assert (H : (List.length ["url_poller.py"] <= 1)%nat) by (simpl; lia).
  assert (Hw : w_write sample_world (output_file sample_world) = None)
    by reflexivity.
  split; [exact H |]. split; [exact Hw |].
  exact (script_example_exit_status_bounded sample_world ["url_poller.py"]
           H Hw).
Defined.


(** X19.  When the output file cannot be written, the exception of [open]
    or [json.dump] ends the run after the requests and the report: no file
    is recorded, the line naming the file is not printed, and the exit
    status is 1 whatever the results are. *)
Theorem script_example_write_failure w argv e :
  (List.length argv <= 1)%nat ->
  w_write w (output_file w) = Some e ->
  exists results,
    outcome (poll_urls w (mkPoller 10 5) example_urls_dict) = inr results /\
    script w argv
    = ([ Stdout (Text "Starting URL polling...");
         Stdout (Text "Checking 3 URLs with 5 concurrent workers");
         Stdout (DictRepr example_urls_dict) ]
       ++ trace (poll_urls w (mkPoller 10 5) example_urls_dict)
       ++ report_header w ++ summary_lines results
       ++ flat_map (result_lines true) results,
       inl (Raise e)) /\
    exit_status (script w argv) = 1.
Proof.
  intros Hargv Hwrite. apply Nat.ltb_ge in Hargv.
  destruct (poll_urls_returns w (mkPoller 10 5) example_urls_dict eq_refl)
    as (t & keyed & endpoints & Hpoll & _).
  exists (map snd keyed). rewrite Hpoll. split; [reflexivity |].
  assert (Hscript :
           script w argv
           = ([ Stdout (Text "Starting URL polling...");
                Stdout (Text "Checking 3 URLs with 5 concurrent workers");
                Stdout (DictRepr example_urls_dict) ]
              ++ t ++ report_header w ++ summary_lines (map snd keyed)
              ++ flat_map (result_lines true) (map snd keyed),
              inl (Raise e))).
  { unfold script. rewrite Hargv. unfold main.
    change (build_urls_dict example_urls []) with
      (@ret (Dict string) example_urls_dict).
    cbn [bind print emit ret].
    rewrite (poll_print_save_write_fails _ _ _ _ _ _ Hpoll Hwrite).
    reflexivity. }
  rewrite Hscript. split; reflexivity.
Qed.

Lemma script_example_write_failure_witness :
  (List.length ["url_poller.py"] <= 1)%nat /\
  w_write read_only_world (output_file read_only_world)
    = Some (mkExc [] "[Errno 30] Read-only file system") /\
  exists results,
    outcome (poll_urls read_only_world (mkPoller 10 5) example_urls_dict)
      = inr results /\
    script read_only_world ["url_poller.py"]
    = ([ Stdout (Text "Starting URL polling...");
         Stdout (Text "Checking 3 URLs with 5 concurrent workers");
         Stdout (DictRepr example_urls_dict) ]
       ++ trace (poll_urls read_only_world (mkPoller 10 5) example_urls_dict)
       ++ report_header read_only_world ++ summary_lines results
       ++ flat_map (result_lines true) results,
       inl (Raise (mkExc [] "[Errno 30] Read-only file system"))) /\
    exit_status (script read_only_world ["url_poller.py"]) = 1.
Proof.
  assert (H : (List.length ["url_poller.py"] <= 1)%nat) by (simpl; lia).
  assert (Hw : w_write read_only_world (output_file read_only_world)
               = Some (mkExc [] "[Errno 30] Read-only file system"))
    by reflexivity.
  split; [exact H |]. split; [exact Hw |].
  exact (script_example_write_failure read_only_world ["url_poller.py"]
           _ H Hw).
Defined.

